(** * Index_Challenge: the index model of [index_model/index.py]

    A shallow embedding of class [IndexModel] and the proofs of the
    properties its specification states.

    Conventions of the embedding.
    - Python exceptions are values: a computation has type [res A], either
      [Ok a] or [Raise e]; statements are sequenced with the bind of that
      monad, in the order Python evaluates them.
    - Python [float] is read as an exact rational ([Qc], rationals in lowest
      terms, with Leibniz equality): rounding, overflow, infinities and NaN
      are outside the model.  Division keeps its Python behaviour on a zero
      denominator ([ZeroDivisionError]).
    - Python [int] is [Z]; row positions and list positions are [nat].
    - A list object that the code mutates in place lives in a store
      ([gmap loc (list Qc)]); see [IndexModel.Store].
    - The data frame read by [pd.read_csv] is a header and a list of rows, a
      row being the text of its [Date] column (column 0) followed by its
      numeric cells (columns 1, 2, ...).
    - [calendar] and [datetime] are the Python standard library; the few
      functions the class calls are transcribed from CPython ([Lib/calendar.py],
      [Lib/_pydatetime.py]). *)

From Stdlib Require Import ZArith QArith Qcanon String Ascii List Lia Permutation Sorted.
From stdpp Require Import base option list numbers sorting gmap.

Import ListNotations.
Local Open Scope Z_scope.

(** ** Exceptions *)

Module Py.

Inductive exn : Type :=
| ValueError
| IndexError
| ZeroDivisionError
| SystemError.

Inductive res (A : Type) : Type :=
| Ok (a : A)
| Raise (e : exn).

Arguments Ok {A} a.
Arguments Raise {A} e.

#[global] Instance res_ret : MRet res := fun A a => Ok a.

#[global] Instance res_bind : MBind res := fun A B f m =>
  match m with
  | Ok a => f a
  | Raise e => Raise e
  end.

#[global] Instance res_fmap : FMap res := fun A B f m =>
  match m with
  | Ok a => Ok (f a)
  | Raise e => Raise e
  end.

(** [l[i]] on a list: [IndexError] out of range. *)
Definition getitem {A} (l : list A) (i : nat) : res A :=
  match l !! i with
  | Some a => Ok a
  | None => Raise IndexError
  end.

(** [l[:n]] for an [int] [n]: a negative bound counts from the end. *)
Definition slice_to {A} (n : Z) (l : list A) : list A :=
  if n <? 0 then firstn (Z.to_nat (Z.of_nat (length l) + n)) l
  else firstn (Z.to_nat n) l.

(** [s[i:j]] and [s[i:]] on text. *)
Definition str_slice (i j : nat) (s : string) : string :=
  String.substring i (j - i) s.

Definition str_from (i : nat) (s : string) : string :=
  String.substring i (String.length s - i) s.

(** *** [int(s)], base 10

    Leading and trailing white space is dropped, one sign is allowed, then
    decimal digits, single underscores allowed between two digits.  Only
    ASCII text is modelled. *)

Definition is_space (c : ascii) : bool :=
  let n := nat_of_ascii c in
  ((9 <=? n) && (n <=? 13) || (28 <=? n) && (n <=? 32))%nat.

Definition digit_of (c : ascii) : option Z :=
  let n := nat_of_ascii c in
  if ((48 <=? n) && (n <=? 57))%nat then Some (Z.of_nat n - 48) else None.

Fixpoint lstrip (s : list ascii) : list ascii :=
  match s with
  | c :: s' => if is_space c then lstrip s' else s
  | [] => []
  end.

Definition strip (s : list ascii) : list ascii :=
  rev (lstrip (rev (lstrip s))).

(** [after_digit] tells whether the previous character was a digit: the text
    may end, and an underscore may come, only there. *)
Fixpoint digits (acc : Z) (after_digit : bool) (s : list ascii) : option Z :=
  match s with
  | [] => if after_digit then Some acc else None
  | c :: s' =>
      match digit_of c with
      | Some d => digits (10 * acc + d) true s'
      | None =>
          if Ascii.eqb c "_" && after_digit
          then match s' with [] => None | _ => digits acc false s' end
          else None
      end
  end.

Definition int (s : string) : res Z :=
  let body := strip (list_ascii_of_string s) in
  let signed :=
    match body with
    | c :: s' =>
        if Ascii.eqb c "-" then (fun z => - z) <$> digits 0 false s'
        else if Ascii.eqb c "+" then digits 0 false s'
        else digits 0 false body
    | [] => None
    end in
  match signed with
  | Some z => Ok z
  | None => Raise ValueError
  end.

End Py.

Import Py.

(** ** The standard library's calendar *)

Module Calendar.

Definition MINYEAR : Z := 1.
Definition MAXYEAR : Z := 9999.

(** [calendar.isleap] *)
Definition isleap (year : Z) : bool :=
  (year mod 4 =? 0) && (negb (year mod 100 =? 0) || (year mod 400 =? 0)).

(** [calendar.mdays], for a month in 1..12 *)
Definition mdays (month : Z) : Z :=
  match month with
  | 1 => 31 | 2 => 28 | 3 => 31 | 4 => 30 | 5 => 31 | 6 => 30
  | 7 => 31 | 8 => 31 | 9 => 30 | 10 => 31 | 11 => 30 | 12 => 31
  | _ => 0
  end.

(** [_days_in_month] *)
Definition days_in_month (year month : Z) : Z :=
  if (month =? 2) && isleap year then 29 else mdays month.

(** [_days_before_year]: days before January 1st of [year] *)
Definition days_before_year (year : Z) : Z :=
  let y := year - 1 in
  y * 365 + y / 4 - y / 100 + y / 400.

(** [_days_before_month]: days of [year] before the first day of [month] *)
Definition days_before_month (year month : Z) : Z :=
  match month with
  | 1 => 0 | 2 => 31 | 3 => 59 | 4 => 90 | 5 => 120 | 6 => 151
  | 7 => 181 | 8 => 212 | 9 => 243 | 10 => 273 | 11 => 304 | 12 => 334
  | _ => 0
  end + (if (2 <? month) && isleap year then 1 else 0).

(** [_ymd2ord]: the proleptic Gregorian ordinal, 1 for 0001-01-01 *)
Definition ymd2ord (year month day : Z) : Z :=
  days_before_year year + days_before_month year month + day.

(** A [datetime.date] object. *)
Record date : Type := Date_ { year : Z; month : Z; day : Z }.

#[global] Instance date_eq_dec : EqDecision date.
Proof. solve_decision. Defined.

(** The constructor [datetime.date(year, month, day)] checks its fields. *)
Definition dt_date (y m d : Z) : res date :=
  if negb ((MINYEAR <=? y) && (y <=? MAXYEAR)) then Raise ValueError
  else if negb ((1 <=? m) && (m <=? 12)) then Raise ValueError
  else if negb ((1 <=? d) && (d <=? days_in_month y m)) then Raise ValueError
  else Ok (Date_ y m d).

(** [date.weekday()]: Monday is 0, Sunday is 6 *)
Definition date_weekday (d : date) : Z :=
  (ymd2ord (year d) (month d) (day d) + 6) mod 7.

(** [calendar.weekday] *)
Definition weekday (y m d : Z) : res Z :=
  let y := if negb ((MINYEAR <=? y) && (y <=? MAXYEAR)) then 2000 + y mod 400 else y in
  dt ← dt_date y m d;
  Ok (date_weekday dt).

(** [calendar.monthrange]: weekday of the first day and number of days *)
Definition monthrange (y m : Z) : res (Z * Z) :=
  if negb ((1 <=? m) && (m <=? 12)) then Raise ValueError
  else
    day1 ← weekday y m 1;
    let ndays := mdays m + (if (m =? 2) && isleap y then 1 else 0) in
    Ok (day1, ndays).

End Calendar.

Import Calendar.

(** ** Class [IndexModel] *)

Module IndexModel.

Local Open Scope Qc_scope.

(** Numbers that Python prints as [0.5], [0.25], [1] and [100]. *)
Definition num (z : Z) : Qc := Q2Qc (inject_Z z).
Definition half : Qc := Q2Qc (1 # 2).
Definition quarter : Qc := Q2Qc (1 # 4).

(** [x < y] and [x == y] on numbers. *)
Definition ltb (x y : Qc) : bool :=
  match x ?= y with Lt => true | _ => false end.

Definition eqb (x y : Qc) : bool :=
  match x ?= y with Eq => true | _ => false end.

(** [x / y] *)
Definition truediv (x y : Qc) : res Qc :=
  if eqb y (num 0) then Raise ZeroDivisionError else Ok (x / y).

(** *** [list.sort(reverse=True)]

    Python's sort is stable, also when reversed: of two elements that
    compare equal, the one that came first stays first.  It only ever asks
    [<].  [insert_desc x l] puts [x] in front of the first element that is
    not greater than [x]. *)
Fixpoint insert_desc (x : Qc) (l : list Qc) : list Qc :=
  match l with
  | [] => [x]
  | y :: l' => if ltb x y then y :: insert_desc x l' else x :: l
  end.

Fixpoint sort_desc (l : list Qc) : list Qc :=
  match l with
  | [] => []
  | x :: l' => insert_desc x (sort_desc l')
  end.

(** [l.index(v)]: the first position whose element equals [v]. *)
Fixpoint index (l : list Qc) (v : Qc) : res nat :=
  match l with
  | [] => Raise ValueError
  | x :: l' => if eqb x v then Ok 0%nat else S <$> index l' v
  end.

(** *** Lists as objects

    [top_n] receives a reference to a list, copies it and sorts the copy in
    place.  The store maps references to list contents. *)
Module Store.

Definition loc : Type := nat.

Definition M (A : Type) : Type := gmap loc (list Qc) → res (A * gmap loc (list Qc)).

#[global] Instance M_ret : MRet M := fun A a h => Ok (a, h).

#[global] Instance M_bind : MBind M := fun A B f m h =>
  match m h with
  | Ok (a, h') => f a h'
  | Raise e => Raise e
  end.

Definition deref (l : loc) : M (list Qc) := fun h =>
  match h !! l with
  | Some v => Ok (v, h)
  | None => Raise SystemError
  end.

Definition alloc (v : list Qc) : M loc := fun h =>
  let l := fresh (dom h) in Ok (l, <[l := v]> h).

Definition assign (l : loc) (v : list Qc) : M unit := fun h =>
  Ok (tt, <[l := v]> h).

(** [del name], for the only name bound to the object: the object goes. *)
Definition del (l : loc) : M unit := fun h => Ok (tt, delete l h).

(** [values.copy()] *)
Definition list_copy (values : loc) : M loc :=
  v ← deref values; alloc v.

(** [vals.sort(reverse=True)] *)
Definition list_sort_reverse (vals : loc) : M unit :=
  v ← deref vals; assign vals (sort_desc v).

(** [vals[:n]] *)
Definition list_slice_to (vals : loc) (n : Z) : M loc :=
  v ← deref vals; alloc (slice_to n v).

(** [IndexModel.top_n], lines 13-27 *)
Definition top_n (values : loc) (n : Z) : M loc :=
  vals ← list_copy values;
  _ ← list_sort_reverse vals;
  x ← list_slice_to vals n;
  _ ← del vals;
  mret x.

End Store.

(** [IndexModel.top_n] on list contents: what the list returned by
    [Store.top_n] holds (lemma [top_n_store]). *)
Definition top_n (values : list Qc) (n : Z) : list Qc :=
  slice_to n (sort_desc values).

(** [IndexModel.top3_list_index], lines 29-40 *)
Definition top3_list_index (vals : list Qc) : res (nat * nat * nat) :=
  let tops := top_n vals 3 in
  t0 ← getitem tops 0; x ← index vals t0;
  t1 ← getitem tops 1; y ← index vals t1;
  t2 ← getitem tops 2; z ← index vals t2;
  Ok (x, y, z).

(** [IndexModel.calc_portfolio_value], lines 42-52 *)
Definition calc_portfolio_value (prices : Qc * Qc * Qc) : Qc :=
  let '(x, y, z) := prices in
  half * x + quarter * y + quarter * z.

(** [IndexModel.split_date], lines 54-64 *)
Definition split_date (date : string) : res (Z * Z * Z) :=
  year ← int (str_from 6 date);
  month ← int (str_slice 3 5 date);
  day ← int (str_slice 0 2 date);
  Ok (year, month, day).

(** [IndexModel.month_last_day], lines 66-77 *)
Definition month_last_day (dates : string) : res date :=
  '(year, month, day) ← split_date dates;
  '(_, last_day) ← monthrange year month;
  dt_date year month last_day.

(** [IndexModel.last_working_day], lines 79-99 *)
Definition last_working_day (dates : string) : res date :=
  last_day ← month_last_day dates;
  day ← weekday (year last_day) (month last_day) (day last_day);
  let l_day :=
    if (day =? 5)%Z then (Calendar.day last_day - 1)%Z
    else if (day =? 6)%Z then (Calendar.day last_day - 2)%Z
    else Calendar.day last_day in
  dt_date (year last_day) (month last_day) l_day.

(** [IndexModel.first_working_day], lines 101-119 *)
Definition first_working_day (dates : string) : res date :=
  '(year, month, day) ← split_date dates;
  f_day ← weekday year month 1;
  let day := if (f_day =? 5)%Z then 3%Z else if (f_day =? 6)%Z then 2%Z else 1%Z in
  dt_date year month day.

(** *** The data frame

    A row, as [iterrows] yields it: [row['Date']] is the text in column 0,
    and [row[i]] for [i = 1, 2, ...] is the number in column [i].  The frame
    keeps the labels of the numeric columns; column 0 is labelled [Date]. *)
Record Row : Type := { Date : string; cells : list Qc }.

Record DataFrame : Type := { names : list string; rows : list Row }.

Definition columns (df : DataFrame) : list string := "Date"%string :: names df.

(** [row[i]] read as a number.  Position 0 holds the date text, which is no
    number; the engine never asks for it (lemma [tops_positive]). *)
Definition row_getitem (row : Row) (i : nat) : res Qc :=
  match i with
  | O => Raise ValueError
  | S j => getitem (cells row) j
  end.

(** [list(row[1:12])] *)
Definition row_1_12 (row : Row) : list Qc := firstn 11 (cells row).

(** The position of a label among the numeric columns. *)
Fixpoint label_index (name : string) (l : list string) : option nat :=
  match l with
  | [] => None
  | x :: l' => if String.eqb x name then Some 0%nat else S <$> label_index name l'
  end.

(** [df[name] = values], for a label other than [Date]: an existing column
    is overwritten where it stands, a new one is appended on the right. *)
Definition setitem (name : string) (values : list Qc) (df : DataFrame) : res DataFrame :=
  if negb (length values =? length (rows df))%nat then Raise ValueError
  else
    match label_index name (names df) with
    | Some j =>
        Ok {| names := names df;
              rows := zip_with (fun r v => {| Date := Date r; cells := <[j := v]> (cells r) |})
                        (rows df) values |}
    | None =>
        Ok {| names := names df ++ [name];
              rows := zip_with (fun r v => {| Date := Date r; cells := cells r ++ [v] |})
                        (rows df) values |}
    end.

(** *** The engine: [IndexModel.calc_index_level], lines 121-154 *)

(** The local variables of the loop. *)
Record State : Type := {
  top_1 : nat;
  top_2 : nat;
  top_3 : nat;
  old_tops : nat * nat * nat;
  portfolio_value : list Qc;
  index_level : list Qc;
  divisor : Qc;
  old_portfolio_value : Qc
}.

(** Lines 123-128 *)
Definition init : State :=
  {| top_1 := 1; top_2 := 1; top_3 := 1;
     old_tops := (1, 1, 1)%nat;
     portfolio_value := [];
     index_level := [];
     divisor := num 1;
     old_portfolio_value := num 100 |}.

(** [(row[a], row[b], row[c])] *)
Definition row_prices (row : Row) (sel : nat * nat * nat) : res (Qc * Qc * Qc) :=
  let '(a, b, c) := sel in
  x ← row_getitem row a;
  y ← row_getitem row b;
  z ← row_getitem row c;
  Ok (x, y, z).

Definition tops (st : State) : nat * nat * nat := (top_1 st, top_2 st, top_3 st).

(** The body of the loop, lines 131-151, for the row at [index]. *)
Definition step (index : nat) (row : Row) (st : State) : res State :=
  '(year, month, day) ← split_date (Date row);
  prices ← row_prices row (tops st);
  let portfolio_value' := portfolio_value st ++ [calc_portfolio_value prices] in
  today ← dt_date year month day;
  lwd ← last_working_day (Date row);
  st' ←
    (if decide (today = lwd) then
       let price_list := row_1_12 row in
       let old_tops' := tops st in
       '(x, y, z) ← top3_list_index price_list;
       Ok {| top_1 := x + 1; top_2 := y + 1; top_3 := z + 1;
             old_tops := old_tops';
             portfolio_value := portfolio_value';
             index_level := index_level st;
             divisor := divisor st;
             old_portfolio_value := old_portfolio_value st |}
     else
       today ← dt_date year month day;
       fwd ← first_working_day (Date row);
       if decide (today = fwd) then
         old_portfolio_value' ←
           (if (3 <? index)%nat then
              old_prices ← row_prices row (old_tops st);
              Ok (calc_portfolio_value old_prices)
            else Ok (old_portfolio_value st));
         let new_portfolio_value := calc_portfolio_value prices in
         q ← truediv new_portfolio_value old_portfolio_value';
         Ok {| top_1 := top_1 st; top_2 := top_2 st; top_3 := top_3 st;
               old_tops := old_tops st;
               portfolio_value := portfolio_value';
               index_level := index_level st;
               divisor := q * divisor st;
               old_portfolio_value := old_portfolio_value' |}
       else
         Ok {| top_1 := top_1 st; top_2 := top_2 st; top_3 := top_3 st;
               old_tops := old_tops st;
               portfolio_value := portfolio_value';
               index_level := index_level st;
               divisor := divisor st;
               old_portfolio_value := old_portfolio_value st |});
  level ← truediv (calc_portfolio_value prices) (divisor st');
  Ok {| top_1 := top_1 st'; top_2 := top_2 st'; top_3 := top_3 st';
        old_tops := old_tops st';
        portfolio_value := portfolio_value st';
        index_level := index_level st' ++ [level];
        divisor := divisor st';
        old_portfolio_value := old_portfolio_value st' |}.

(** [for index, row in self.df.iterrows()], rows numbered from [index] on *)
Fixpoint iterrows (index : nat) (rs : list Row) (st : State) : res State :=
  match rs with
  | [] => Ok st
  | row :: rs' => st' ← step index row st; iterrows (S index) rs' st'
  end.

(** The loop of [calc_index_level] from its initial state. *)
Definition run (rs : list Row) : res State := iterrows 0 rs init.

(** [calc_index_level]: the loop, then the two new columns (lines 153-154).
    The method returns nothing and changes [self.df]; the new frame is the
    result here. *)
Definition calc_index_level (start_date end_date : date) (df : DataFrame) : res DataFrame :=
  st ← run (rows df);
  df ← setitem "Index_Portfolio_Value" (portfolio_value st) df;
  setitem "Index_Level" (index_level st) df.

(** [IndexModel.export_values], lines 156-158: the frame [exp_df] handed to
    [to_csv], its header and its rows.  [iloc[2:, [0, 12]]] takes columns 0
    and 12 by position and leaves out the first two rows. *)
Definition export_values (df : DataFrame) : res (list string * list (string * Qc)) :=
  label ← getitem (columns df) 12;
  body ← mapM (M := res) (fun r => v ← row_getitem r 12; Ok (Date r, v)) (drop 2 (rows df));
  Ok (["Date"%string; label], body).

End IndexModel.

Import IndexModel.

(** ** Notions the properties are stated with *)

(** The text [DD/MM/YYYY] of a date: what [split_date] reads back. *)
Definition digit_char (n : Z) : ascii := ascii_of_nat (48 + Z.to_nat n).

Definition digits_text (ds : list Z) : string :=
  string_of_list_ascii (digit_char <$> ds).

Definition two_digits (n : Z) : string :=
  digits_text [n / 10; n mod 10].

Definition four_digits (n : Z) : string :=
  digits_text [n / 1000; n / 100 mod 10; n / 10 mod 10; n mod 10].

Definition date_text (year month day : Z) : string :=
  (two_digits day ++ "/" ++ two_digits month ++ "/" ++ four_digits year)%string.

(** The month after [month] of [year]. *)
Definition next_month (year month : Z) : Z * Z :=
  if month =? 12 then (year + 1, 1) else (year, month + 1).


(** Saturday or Sunday. *)
Definition weekend (d : date) : Prop := date_weekday d = 5 ∨ date_weekday d = 6.

(** Descending order, ties allowed. *)
Definition desc : relation Qc := fun a b => (b <= a)%Qc.

(** [i] is the first position of [l] that holds [v]. *)
Definition first_occurrence (l : list Qc) (v : Qc) (i : nat) : Prop :=
  l !! i = Some v ∧ ∀ j, (j < i)%nat → l !! j ≠ Some v.

(** A store with one list in it, under reference 7. *)
Definition sample_values : list Qc := map num [3; 1; 2].

Definition sample_store : gmap Store.loc (list Qc) := {[ 7%nat := sample_values ]}.

(** A small list with a tie at the top. *)
Definition tied_prices : list Qc := map num [5; 5; 3; 1].

(** The date of a row, as line 135 builds it. *)
Definition row_date (row : Row) : res date :=
  '(year, month, day) ← split_date (Date row);
  dt_date year month day.

(** The two tests of lines 135 and 142, as truth values. *)
Definition on_last_working_day (row : Row) : bool :=
  match row_date row, last_working_day (Date row) with
  | Ok today, Ok lwd => bool_decide (today = lwd)
  | _, _ => false
  end.

Definition on_first_working_day (row : Row) : bool :=
  match row_date row, first_working_day (Date row) with
  | Ok today, Ok fwd => bool_decide (today = fwd)
  | _, _ => false
  end.

(** The state in which row [i] of the series is met. *)
Definition state_before (rs : list Row) (i : nat) : res State := run (take i rs).

(** A computation that does not end in [ZeroDivisionError]. *)
Definition no_zero_division {A} (m : res A) : Prop := m ≠ Raise ZeroDivisionError.


(** The selection holds positions of numeric columns (1 or more). *)
Definition positions_ok (st : State) : Prop :=
  (1 <= top_1 st ∧ 1 <= top_2 st ∧ 1 <= top_3 st ∧
   1 <= (old_tops st).1.1 ∧ 1 <= (old_tops st).1.2 ∧ 1 <= (old_tops st).2)%nat.


(** The selections hold positions among [k] numeric columns. *)
Definition positions_within (k : nat) (st : State) : Prop :=
  Forall (fun p => 1 <= p <= k)%nat
    [top_1 st; top_2 st; top_3 st; (old_tops st).1.1; (old_tops st).1.2; (old_tops st).2].

(** The length of [l[:n]] for a list of length [len]. *)
Definition slice_length (n : Z) (len : nat) : nat :=
  if (n <? 0)%Z then Z.to_nat (Z.of_nat len + n) else Nat.min (Z.to_nat n) len.

(** Prices not all alike, in two orders. *)
Definition shuffled_prices : list Qc := map num [1; 2; 3].

(** Two lists of numbers that are equal entry by entry. *)
Fixpoint same_numbers (l k : list Qc) : bool :=
  match l, k with
  | [], [] => true
  | x :: l', y :: k' => eqb x y && same_numbers l' k'
  | _, _ => false
  end.

(** *** Sample series *)

Definition row (date : string) (prices : list Z) : Row :=
  {| Date := date; cells := map num prices |}.

(** Friday 31 January 2020 is the last working day of its month, Monday 3
    February 2020 the first working day of the next. *)
Definition january_31 : Row := row "31/01/2020" [1; 2; 3].

Definition month_end_series : list Row :=
  [ january_31; row "03/02/2020" [1; 2; 3] ].

(** Wednesday 15 January 2020 is neither the first nor the last working
    day of its month. *)
Definition january_15 : Row := row "15/01/2020" [1; 2; 3].

(** A week that ends a month and the two days that begin the next: row 4 is
    the last working day of January 2020, row 5 the first working day of
    February 2020. *)
Definition turn_of_month : list Row :=
  [ row "27/01/2020" [10; 20; 30; 40];
    row "28/01/2020" [10; 20; 30; 40];
    row "29/01/2020" [10; 20; 30; 40];
    row "30/01/2020" [10; 20; 30; 40];
    row "31/01/2020" [10; 20; 30; 40];
    row "03/02/2020" [10; 20; 30; 44];
    row "04/02/2020" [10; 20; 30; 48] ].

Definition february_3 : Row := row "03/02/2020" [10; 20; 30; 44].

(** The new year begins on a working day: row 0 is Wednesday 1 January 2020. *)
Definition new_year : list Row :=
  [ row "01/01/2020" [200; 20; 30];
    row "02/01/2020" [200; 20; 30];
    row "03/01/2020" [200; 20; 30] ].

Definition january_1 : Row := row "01/01/2020" [200; 20; 30].

(** A frame of ten numeric columns, and the same frame with an eleventh. *)
Definition ten_frame : DataFrame :=
  {| names := ["Stock_A"; "Stock_B"; "Stock_C"; "Stock_D"; "Stock_E";
               "Stock_F"; "Stock_G"; "Stock_H"; "Stock_I"; "Stock_J"]%string;
     rows := [ row "01/01/2020" [200; 20; 30; 40; 50; 60; 70; 80; 90; 10];
               row "02/01/2020" [200; 20; 30; 40; 50; 60; 70; 80; 90; 10];
               row "03/01/2020" [300; 20; 30; 40; 50; 60; 70; 80; 90; 10];
               row "06/01/2020" [400; 20; 30; 40; 50; 60; 70; 80; 90; 10] ] |}.

Definition eleven_frame : DataFrame :=
  {| names := ["Stock_A"; "Stock_B"; "Stock_C"; "Stock_D"; "Stock_E"; "Stock_F";
               "Stock_G"; "Stock_H"; "Stock_I"; "Stock_J"; "Stock_K"]%string;
     rows := [ row "01/01/2020" [200; 20; 30; 40; 50; 60; 70; 80; 90; 10; 11];
               row "02/01/2020" [200; 20; 30; 40; 50; 60; 70; 80; 90; 10; 11];
               row "03/01/2020" [300; 20; 30; 40; 50; 60; 70; 80; 90; 10; 11];
               row "06/01/2020" [400; 20; 30; 40; 50; 60; 70; 80; 90; 10; 11] ] |}.

Definition some_day : date := Date_ 2020 1 1.
Definition other_day : date := Date_ 2020 12 31.

(** The layout on which column 12 is [Index_Level]: ten numeric columns in
    every row, none of them bearing the label of a column the engine adds. *)
Definition ten_columns (df : DataFrame) : Prop :=
  length (names df) = 10%nat ∧
  ("Index_Portfolio_Value"%string ∉ names df) ∧
  ("Index_Level"%string ∉ names df) ∧
  Forall (fun r => length (cells r) = 10%nat) (rows df).

(** The rows of the export that C2 describes: the dates and the index levels
    of the rows from the third on, in their order. *)
Definition levels_from_third_row (df : DataFrame) (fin : State) : list (string * Qc) :=
  drop 2 (zip (Date <$> rows df) (index_level fin)).

(** A series whose second row has no readable date. *)
Definition unreadable_row : Row := row "2020-01-15" [1; 2; 3].

Definition broken_series : list Row := [ january_15; unreadable_row; january_31 ].

(** Three ordinary days in the middle of a month. *)
Definition mid_month : list Row :=
  [ row "14/01/2020" [10; 20; 30];
    row "15/01/2020" [11; 21; 31];
    row "16/01/2020" [12; 22; 32] ].

(** A frame with eleven numeric columns or more in every row, none of them
    bearing the label of a column the engine adds. *)
Definition wide_frame (df : DataFrame) : Prop :=
  (11 <= length (names df))%nat ∧
  ("Index_Portfolio_Value"%string ∉ names df) ∧
  ("Index_Level"%string ∉ names df) ∧
  Forall (fun r => length (cells r) = length (names df)) (rows df).

(** Two rows the loop body cannot tell apart: the same date text and the same
    first eleven numbers. *)
Definition same_view (r r' : Row) : Prop :=
  Date r = Date r' ∧ take 11 (cells r) = take 11 (cells r').

(** *** The claims that fail, as they are worded *)

(** C1 as worded: the value recorded for a row is that of the selection in
    force once the row has been dealt with, the new one on a rebalance day. *)
Definition value_of_selection_at_row (rs : list Row) : Prop :=
  ∀ fin i r st',
    run rs = Ok fin → rs !! i = Some r → state_before rs (S i) = Ok st' →
    ∃ prices, row_prices r (tops st') = Ok prices ∧
              portfolio_value fin !! i = Some (calc_portfolio_value prices).

(** C2 as worded: whatever the frame, the export has the columns [Date] and
    [Index_Level] and the rows above. *)
Definition exports_index_level (df : DataFrame) : Prop :=
  ∀ start_date end_date df' fin,
    calc_index_level start_date end_date df = Ok df' → run (rows df) = Ok fin →
    export_values df' =
      Ok (["Date"; "Index_Level"]%string, levels_from_third_row df fin).

(** * Properties *)

(** ** Reasoning about [res] *)

Lemma bind_Ok {A B} (m : res A) (f : A → res B) (b : B) :
  m ≫= f = Ok b ↔ ∃ a, m = Ok a ∧ f a = Ok b.
Proof.
  destruct m as [a|e]; simpl; split.
  - intros H. exists a. auto.
  - intros (a' & Ha & H). congruence.
  - discriminate.
  - intros (a' & Ha & _). discriminate.
Qed.

Lemma fmap_Ok {A B} (m : res A) (f : A → B) (b : B) :
  f <$> m = Ok b ↔ ∃ a, m = Ok a ∧ b = f a.
Proof.
  destruct m as [a|e]; simpl; split.
  - intros [= <-]. eauto.
  - intros (a' & [= <-] & ->). reflexivity.
  - discriminate.
  - intros (a' & Ha & _). discriminate.
Qed.

(** [inv_res H] opens a hypothesis [... = Ok _] along the binds of its left
    side. *)
Ltac inv_res H :=
  lazymatch type of H with
  | (_ ≫= _) = Ok _ =>
      let a := fresh "a" in
      let Ha := fresh "E" in
      apply bind_Ok in H; destruct H as (a & Ha & H); inv_res H
  | Ok _ = Ok _ => injection H as H; try subst
  | Raise _ = Ok _ => discriminate H
  | _ => idtac
  end.

(** ** The calendar *)

Section CalendarFacts.

Local Open Scope Z_scope.

Lemma days_in_month_range y m : 1 <= m <= 12 → 28 <= days_in_month y m <= 31.
Proof.
  intros Hm. unfold days_in_month.
  assert (m = 1 ∨ m = 2 ∨ m = 3 ∨ m = 4 ∨ m = 5 ∨ m = 6 ∨ m = 7 ∨ m = 8 ∨
          m = 9 ∨ m = 10 ∨ m = 11 ∨ m = 12) as Hc by lia.
  repeat destruct Hc as [-> | Hc]; try subst m; simpl; try lia;
    destruct (isleap y); simpl; lia.
Qed.

Lemma monthrange_ndays y m :
  mdays m + (if (m =? 2) && isleap y then 1 else 0) = days_in_month y m.
Proof.
  unfold days_in_month. destruct (Z.eqb_spec m 2) as [-> | ?]; simpl; [|lia].
  destruct (isleap y); reflexivity.
Qed.

Lemma dt_date_Ok y m d :
  1 <= y <= 9999 → 1 <= m <= 12 → 1 <= d <= days_in_month y m →
  dt_date y m d = Ok (Date_ y m d).
Proof.
  intros Hy Hm Hd. unfold dt_date, MINYEAR, MAXYEAR.
  replace ((1 <=? y) && (y <=? 9999)) with true by (symmetry; apply andb_true_iff; lia).
  replace ((1 <=? m) && (m <=? 12)) with true by (symmetry; apply andb_true_iff; lia).
  replace ((1 <=? d) && (d <=? days_in_month y m)) with true
    by (symmetry; apply andb_true_iff; lia).
  reflexivity.
Qed.

Lemma dt_date_inv y m d dt :
  dt_date y m d = Ok dt →
  dt = Date_ y m d ∧ 1 <= y <= 9999 ∧ 1 <= m <= 12 ∧ 1 <= d <= days_in_month y m.
Proof.
  unfold dt_date, MINYEAR, MAXYEAR.
  destruct ((1 <=? y) && (y <=? 9999)) eqn:Ey; simpl; [|discriminate].
  destruct ((1 <=? m) && (m <=? 12)) eqn:Em; simpl; [|discriminate].
  destruct ((1 <=? d) && (d <=? days_in_month y m)) eqn:Ed; simpl; [|discriminate].
  intros [= <-]. apply andb_true_iff in Ey, Em, Ed. repeat split; lia.
Qed.

Lemma weekday_Ok y m d :
  1 <= y <= 9999 → 1 <= m <= 12 → 1 <= d <= days_in_month y m →
  weekday y m d = Ok (date_weekday (Date_ y m d)).
Proof.
  intros Hy Hm Hd. unfold weekday, MINYEAR, MAXYEAR.
  replace ((1 <=? y) && (y <=? 9999)) with true by (symmetry; apply andb_true_iff; lia).
  simpl. rewrite dt_date_Ok by assumption. reflexivity.
Qed.

(** Moving [k] days on within a month moves the weekday [k] places on. *)
Lemma date_weekday_shift y m d k :
  date_weekday (Date_ y m (d + k)) = (date_weekday (Date_ y m d) + k) mod 7.
Proof.
  unfold date_weekday, ymd2ord. simpl.
  rewrite Zplus_mod_idemp_l. f_equal. lia.
Qed.

Lemma date_weekday_range dt : 0 <= date_weekday dt < 7.
Proof. unfold date_weekday. apply Z.mod_pos_bound. lia. Qed.

Lemma month_last_day_Ok s y m d :
  split_date s = Ok (y, m, d) → 1 <= y <= 9999 → 1 <= m <= 12 →
  month_last_day s = Ok (Date_ y m (days_in_month y m)).
Proof.
  intros Hs Hy Hm. unfold month_last_day. rewrite Hs. simpl.
  unfold monthrange.
  replace ((1 <=? m) && (m <=? 12)) with true by (symmetry; apply andb_true_iff; lia).
  pose proof (days_in_month_range y m Hm) as Hr.
  simpl. rewrite weekday_Ok by lia. simpl.
  rewrite monthrange_ndays. apply dt_date_Ok; lia.
Qed.

(** *** Date texts *)

Lemma digit_char_facts d :
  0 <= d <= 9 →
  digit_of (digit_char d) = Some d ∧ is_space (digit_char d) = false ∧
  Ascii.eqb (digit_char d) "-" = false ∧ Ascii.eqb (digit_char d) "+" = false.
Proof.
  intros Hd.
  assert (d = 0 ∨ d = 1 ∨ d = 2 ∨ d = 3 ∨ d = 4 ∨ d = 5 ∨ d = 6 ∨ d = 7 ∨
          d = 8 ∨ d = 9) as Hc by lia.
  repeat destruct Hc as [-> | Hc]; try subst d; repeat split; reflexivity.
Qed.

Lemma lstrip_id s : Forall (fun c => is_space c = false) s → lstrip s = s.
Proof. destruct 1 as [|c s Hc _]; simpl; [reflexivity|]. by rewrite Hc. Qed.

Lemma strip_id s : Forall (fun c => is_space c = false) s → strip s = s.
Proof.
  intros Hs. unfold strip. rewrite (lstrip_id s Hs).
  rewrite lstrip_id by (by apply Forall_rev). apply rev_involutive.
Qed.

Lemma digits_digit_chars acc ds d :
  Forall (fun d => 0 <= d <= 9) (d :: ds) →
  ∀ b, digits acc b (digit_char <$> d :: ds) = Some (foldl (fun a d => 10 * a + d) acc (d :: ds)).
Proof.
  revert acc d. induction ds as [|d' ds IH]; intros acc d Hds b;
    apply Forall_cons in Hds as [Hd Hds];
    destruct (digit_char_facts d Hd) as (Hdig & _).
  - rewrite fmap_cons. cbn [digits fmap list_fmap]. rewrite Hdig. reflexivity.
  - rewrite fmap_cons. cbn [digits]. rewrite Hdig. apply IH. exact Hds.
Qed.

(** [int] reads a text of decimal digits as the number they write. *)
Lemma int_digits_text d ds :
  Forall (fun d => 0 <= d <= 9) (d :: ds) →
  int (digits_text (d :: ds)) = Ok (foldl (fun a d => 10 * a + d) 0 (d :: ds)).
Proof.
  intros Hds. unfold int, digits_text.
  rewrite list_ascii_of_string_of_list_ascii.
  rewrite strip_id.
  2:{ apply Forall_fmap. eapply Forall_impl; [exact Hds|].
      intros x Hx. by destruct (digit_char_facts x Hx) as (_ & ? & _). }
  cbv zeta. rewrite fmap_cons.
  apply Forall_cons in Hds as Hds'. destruct Hds' as [Hd _].
  destruct (digit_char_facts d Hd) as (_ & _ & -> & ->).
  rewrite <- fmap_cons. by rewrite digits_digit_chars.
Qed.

Lemma int_two_digits n : 0 <= n <= 99 → int (two_digits n) = Ok n.
Proof.
  intros Hn. unfold two_digits. rewrite int_digits_text.
  - cbn [foldl]. f_equal. Z.to_euclidean_division_equations; lia.
  - repeat constructor; Z.to_euclidean_division_equations; lia.
Qed.

Lemma int_four_digits n : 0 <= n <= 9999 → int (four_digits n) = Ok n.
Proof.
  intros Hn. unfold four_digits. rewrite int_digits_text.
  - cbn [foldl]. f_equal. Z.to_euclidean_division_equations; lia.
  - repeat constructor; Z.to_euclidean_division_equations; lia.
Qed.

(** Every date has a text that [split_date] reads back. *)
Lemma split_date_date_text y m d :
  0 <= y <= 9999 → 0 <= m <= 99 → 0 <= d <= 99 →
  split_date (date_text y m d) = Ok (y, m, d).
Proof.
  intros Hy Hm Hd. unfold split_date.
  change (str_from 6 (date_text y m d)) with (four_digits y).
  change (str_slice 3 5 (date_text y m d)) with (two_digits m).
  change (str_slice 0 2 (date_text y m d)) with (two_digits d).
  by rewrite int_four_digits, !int_two_digits.
Qed.

End CalendarFacts.

Section WorkingDays.

Local Open Scope Z_scope.

Lemma last_working_day_Ok s y m d :
  split_date s = Ok (y, m, d) → 1 <= y <= 9999 → 1 <= m <= 12 →
  let n := days_in_month y m in
  let w := date_weekday (Date_ y m n) in
  last_working_day s =
    Ok (Date_ y m (if w =? 5 then n - 1 else if w =? 6 then n - 2 else n)).
Proof.
  intros Hs Hy Hm n w. unfold last_working_day.
  rewrite (month_last_day_Ok s y m d Hs Hy Hm). simpl.
  pose proof (days_in_month_range y m Hm) as Hr. fold n in Hr.
  rewrite weekday_Ok by (fold n; lia). simpl. fold n w.
  apply dt_date_Ok; try assumption.
  fold n. destruct (w =? 5); [lia|]. destruct (w =? 6); lia.
Qed.

Lemma first_working_day_Ok s y m d :
  split_date s = Ok (y, m, d) → 1 <= y <= 9999 → 1 <= m <= 12 →
  let w := date_weekday (Date_ y m 1) in
  first_working_day s =
    Ok (Date_ y m (if w =? 5 then 3 else if w =? 6 then 2 else 1)).
Proof.
  intros Hs Hy Hm w. unfold first_working_day. rewrite Hs. simpl.
  pose proof (days_in_month_range y m Hm) as Hr.
  rewrite weekday_Ok by lia. simpl. fold w.
  apply dt_date_Ok; try assumption.
  destruct (w =? 5); [lia|]. destruct (w =? 6); lia.
Qed.

(** C5.  For every valid year and month there are date texts, and for each of
    them [first_working_day] and [last_working_day] return a date of that year
    and month whose day lies within the month and whose weekday is neither
    Saturday (5) nor Sunday (6); the last working day is the last calendar day
    of the month, less one day when that is a Saturday, less two days when it
    is a Sunday, and that day itself otherwise. *)
Theorem working_days_within_month (y m : Z) :
  1 <= y <= 9999 → 1 <= m <= 12 →
  split_date (date_text y m 1) = Ok (y, m, 1) ∧
  ∀ (s : string) (d : Z), split_date s = Ok (y, m, d) →
    ∃ f l n : date,
      first_working_day s = Ok f ∧ last_working_day s = Ok l ∧
      month_last_day s = Ok n ∧
      (year f = y ∧ month f = m ∧ 1 <= day f <= days_in_month y m ∧
       date_weekday f ≠ 5 ∧ date_weekday f ≠ 6) ∧
      (year l = y ∧ month l = m ∧ 1 <= day l <= days_in_month y m ∧
       date_weekday l ≠ 5 ∧ date_weekday l ≠ 6) ∧
      (year n = y ∧ month n = m ∧ day n = days_in_month y m) ∧
      day l = (if date_weekday n =? 5 then day n - 1
               else if date_weekday n =? 6 then day n - 2
               else day n).
Proof.
  intros Hy Hm. split; [apply split_date_date_text; lia|].
  intros s d Hs.
  pose proof (days_in_month_range y m Hm) as Hr.
  eexists _, _, _.
  split; [apply (first_working_day_Ok s y m d Hs Hy Hm)|].
  split; [apply (last_working_day_Ok s y m d Hs Hy Hm)|].
  split; [apply (month_last_day_Ok s y m d Hs Hy Hm)|].
  simpl. split; [|split; [|split]].
  - set (w := date_weekday (Date_ y m 1)).
    pose proof (date_weekday_range (Date_ y m 1)) as Hw. fold w in Hw.
    assert (date_weekday (Date_ y m 3) = (w + 2) mod 7) as H3
      by apply (date_weekday_shift y m 1 2).
    assert (date_weekday (Date_ y m 2) = (w + 1) mod 7) as H2
      by apply (date_weekday_shift y m 1 1).
    destruct (Z.eqb_spec w 5) as [E5|N5].
    + rewrite H3, E5. simpl. repeat split; (lia || discriminate).
    + destruct (Z.eqb_spec w 6) as [E6|N6].
      * rewrite H2, E6. simpl. repeat split; (lia || discriminate).
      * fold w. repeat split; (lia || assumption).
  - set (n := days_in_month y m) in *.
    set (w := date_weekday (Date_ y m n)).
    pose proof (date_weekday_range (Date_ y m n)) as Hw. fold w in Hw.
    assert (date_weekday (Date_ y m (n - 1)) = (w + -1) mod 7) as H1
      by apply (date_weekday_shift y m n (-1)).
    assert (date_weekday (Date_ y m (n - 2)) = (w + -2) mod 7) as H2
      by apply (date_weekday_shift y m n (-2)).
    destruct (Z.eqb_spec w 5) as [E5|N5].
    + rewrite H1, E5. simpl. repeat split; (lia || discriminate).
    + destruct (Z.eqb_spec w 6) as [E6|N6].
      * rewrite H2, E6. simpl. repeat split; (lia || discriminate).
      * fold w. repeat split; (lia || assumption).
  - repeat split.
  - reflexivity.
Qed.

(** August 2020 begins on a Saturday and ends on a Monday. *)
Lemma working_days_within_month_witness :
  split_date (date_text 2020 8 1) = Ok (2020, 8, 1) ∧
  ∀ (s : string) (d : Z), split_date s = Ok (2020, 8, d) →
    ∃ f l n : date,
      first_working_day s = Ok f ∧ last_working_day s = Ok l ∧
      month_last_day s = Ok n ∧
      (year f = 2020 ∧ month f = 8 ∧ 1 <= day f <= days_in_month 2020 8 ∧
       date_weekday f ≠ 5 ∧ date_weekday f ≠ 6) ∧
      (year l = 2020 ∧ month l = 8 ∧ 1 <= day l <= days_in_month 2020 8 ∧
       date_weekday l ≠ 5 ∧ date_weekday l ≠ 6) ∧
      (year n = 2020 ∧ month n = 8 ∧ day n = days_in_month 2020 8) ∧
      day l = (if date_weekday n =? 5 then day n - 1
               else if date_weekday n =? 6 then day n - 2
               else day n).
Proof.
  apply (working_days_within_month 2020 8).
  - lia.
  - lia.
Defined.

(** A working day is never both the first and the last of its month. *)
Lemma first_is_not_last (r : Row) :
  on_first_working_day r = true → on_last_working_day r = false.
Proof.
  unfold on_first_working_day, on_last_working_day.
  destruct (row_date r) as [today|e] eqn:Hdate; [|discriminate].
  unfold row_date in Hdate.
  apply bind_Ok in Hdate as ([[y m] d] & Hs & Hdate).
  apply dt_date_inv in Hdate as (-> & Hy & Hm & Hd).
  rewrite (first_working_day_Ok _ _ _ _ Hs Hy Hm).
  rewrite (last_working_day_Ok _ _ _ _ Hs Hy Hm).
  pose proof (days_in_month_range y m Hm) as Hr.
  intros Hf. apply bool_decide_eq_true in Hf. injection Hf as Hf.
  apply bool_decide_eq_false. intros [= Hl].
  repeat case_match; lia.
Qed.

Example last_working_day_leap : last_working_day "01/02/2024" = Ok (Date_ 2024 2 29).
Proof. reflexivity. Qed.

Example last_working_day_sunday : last_working_day "04/05/2020" = Ok (Date_ 2020 5 29).
Proof. reflexivity. Qed.

Example first_working_day_saturday : first_working_day "28/08/2020" = Ok (Date_ 2020 8 3).
Proof. reflexivity. Qed.

End WorkingDays.

(** ** Ranking: [top_n] *)

Section Ranking.

Local Open Scope Qc_scope.

Lemma ltb_lt x y : ltb x y = true ↔ x < y.
Proof.
  unfold ltb. rewrite Qclt_alt. destruct (x ?= y); split; congruence.
Qed.

Lemma ltb_ge x y : ltb x y = false ↔ y <= x.
Proof.
  rewrite Qcle_ngt, <- ltb_lt. destruct (ltb x y); split; congruence.
Qed.

Lemma eqb_eq x y : eqb x y = true ↔ x = y.
Proof.
  unfold eqb. rewrite Qceq_alt. destruct (x ?= y); split; congruence.
Qed.

Lemma eqb_neq x y : eqb x y = false ↔ x ≠ y.
Proof.
  rewrite <- eqb_eq. destruct (eqb x y); split; congruence.
Qed.

Lemma insert_desc_perm x l : insert_desc x l ≡ₚ x :: l.
Proof.
  induction l as [|y l IH]; simpl; [reflexivity|].
  destruct (ltb x y); [|reflexivity].
  rewrite IH. apply Permutation_swap.
Qed.

Lemma sort_desc_perm l : sort_desc l ≡ₚ l.
Proof.
  induction l as [|x l IH]; simpl; [reflexivity|].
  rewrite insert_desc_perm. by rewrite IH.
Qed.

Lemma sort_desc_length l : length (sort_desc l) = length l.
Proof. apply Permutation_length, sort_desc_perm. Qed.

Lemma insert_desc_sorted x l :
  StronglySorted desc l → StronglySorted desc (insert_desc x l).
Proof.
  induction 1 as [|y l Hl IH Hy]; simpl.
  - repeat constructor.
  - destruct (ltb x y) eqn:E.
    + constructor; [exact IH|].
      rewrite insert_desc_perm. constructor; [|exact Hy].
      apply ltb_lt in E. unfold desc. apply Qclt_le_weak, E.
    + apply ltb_ge in E. constructor; [by constructor|].
      constructor; [exact E|].
      eapply Forall_impl; [exact Hy|].
      intros z Hz. unfold desc in *. by etrans.
Qed.

Lemma sort_desc_sorted l : StronglySorted desc (sort_desc l).
Proof.
  induction l as [|x l IH]; simpl; [constructor|].
  by apply insert_desc_sorted.
Qed.

Lemma slice_to_nat {A} (n : nat) (l : list A) : slice_to (Z.of_nat n) l = take n l.
Proof.
  unfold slice_to. destruct (Z.ltb_spec (Z.of_nat n) 0) as [?|_]; [lia|].
  by rewrite Nat2Z.id.
Qed.

Lemma top_n_nat v (n : nat) : top_n v (Z.of_nat n) = take n (sort_desc v).
Proof. unfold top_n. apply slice_to_nat. Qed.

(** What [top_n] returns, on list contents. *)
Lemma top_n_spec v (n : nat) :
  let r := top_n v (Z.of_nat n) in
  length r = (n `min` length v)%nat ∧
  StronglySorted desc r ∧
  ∃ rest, r ++ rest ≡ₚ v ∧ ∀ a b, a ∈ r → b ∈ rest → b <= a.
Proof.
  intros r. unfold r. rewrite top_n_nat.
  pose proof (sort_desc_sorted v) as Hs.
  rewrite <- (take_drop n (sort_desc v)) in Hs.
  split; [by rewrite length_take, sort_desc_length|].
  split; [by eapply StronglySorted_app_1_l|].
  exists (drop n (sort_desc v)). split.
  - rewrite take_drop. apply sort_desc_perm.
  - intros a b Ha Hb.
    apply (StronglySorted_app_1_elem_of desc _ _ a b Hs Ha Hb).
Qed.

(** The run of [Store.top_n] on a store that holds the argument list. *)
Lemma top_n_store (h : gmap Store.loc (list Qc)) (values : Store.loc) (v : list Qc) (n : Z) :
  h !! values = Some v →
  let vals := fresh (dom h) in
  let x := fresh (dom (<[vals := sort_desc v]> h)) in
  Store.top_n values n h = Ok (x, delete vals (<[x := top_n v n]> (<[vals := sort_desc v]> h))) ∧
  vals ≠ values ∧ x ≠ values ∧ x ≠ vals ∧ h !! vals = None ∧ h !! x = None.
Proof.
  intros Hv vals x.
  assert (h !! vals = None) as Hvals by apply not_elem_of_dom, is_fresh.
  assert (<[vals := sort_desc v]> h !! x = None) as Hx by apply not_elem_of_dom, is_fresh.
  assert (x ≠ vals) as Hxv.
  { intros E. rewrite E, lookup_insert_eq in Hx. discriminate. }
  assert (h !! x = None) as Hx' by (by rewrite lookup_insert_ne in Hx).
  split; [|repeat split; congruence].
  unfold Store.top_n, Store.list_copy, Store.list_sort_reverse, Store.list_slice_to.
  unfold mbind, Store.M_bind, Store.deref, Store.alloc, Store.assign, Store.del,
    mret, Store.M_ret.
  rewrite Hv. fold vals. rewrite lookup_insert_eq, insert_insert_eq.
  rewrite lookup_insert_eq. fold x. reflexivity.
Qed.

(** C6.  [top_n] leaves the list it is given as it was: after the call the
    store holds the same contents under the argument's reference, and under
    every other reference but the fresh one of the result.  For a natural
    number [n] the list returned has length [min n (len v)], is in descending
    order, and holds the [n] largest values of [v]: with the values left out
    it is a rearrangement of [v], and none of those left out exceeds any that
    is returned. *)
Theorem top_n_correct (h : gmap Store.loc (list Qc)) (values : Store.loc)
    (v : list Qc) (n : nat) :
  h !! values = Some v →
  ∃ (x : Store.loc) (h' : gmap Store.loc (list Qc)) (r : list Qc),
    Store.top_n values (Z.of_nat n) h = Ok (x, h') ∧
    h' !! values = Some v ∧
    (∀ l, l ≠ x → h' !! l = h !! l) ∧
    h' !! x = Some r ∧ r = top_n v (Z.of_nat n) ∧
    length r = (n `min` length v)%nat ∧
    StronglySorted (fun a b => b <= a) r ∧
    ∃ rest, r ++ rest ≡ₚ v ∧ ∀ a b, a ∈ r → b ∈ rest → b <= a.
Proof.
  intros Hv.
  destruct (top_n_store h values v (Z.of_nat n) Hv) as (Hrun & H1 & H2 & H3 & H4 & H5).
  eexists _, _, _. split; [exact Hrun|].
  assert (∀ l, l ≠ fresh (dom (<[fresh (dom h) := sort_desc v]> h)) →
    delete (fresh (dom h))
      (<[fresh (dom (<[fresh (dom h) := sort_desc v]> h)) := top_n v (Z.of_nat n)]>
         (<[fresh (dom h) := sort_desc v]> h)) !! l = h !! l) as Hframe.
  { intros l Hl. destruct (decide (l = fresh (dom h))) as [->|Hne].
    - by rewrite lookup_delete_eq, H4.
    - rewrite lookup_delete_ne by done.
      rewrite lookup_insert_ne by done. by rewrite lookup_insert_ne. }
  split; [by rewrite Hframe|].
  split; [exact Hframe|].
  split; [by rewrite lookup_delete_ne, lookup_insert_eq|].
  split; [reflexivity|].
  apply top_n_spec.
Qed.

Lemma top_n_correct_witness :
  ∃ (x : Store.loc) (h' : gmap Store.loc (list Qc)) (r : list Qc),
    Store.top_n 7%nat (Z.of_nat 2) sample_store = Ok (x, h') ∧
    h' !! 7%nat = Some sample_values ∧
    (∀ l, l ≠ x → h' !! l = sample_store !! l) ∧
    h' !! x = Some r ∧ r = top_n sample_values (Z.of_nat 2) ∧
    length r = (2 `min` length sample_values)%nat ∧
    StronglySorted (fun a b => b <= a) r ∧
    ∃ rest, r ++ rest ≡ₚ sample_values ∧ ∀ a b, a ∈ r → b ∈ rest → b <= a.
Proof.
  apply (top_n_correct sample_store 7%nat sample_values 2).
  reflexivity.
Defined.

Example top_n_sample : top_n sample_values 2 = [num 3; num 2].
Proof. reflexivity. Qed.

Example calc_portfolio_value_sample :
  eqb (calc_portfolio_value (num 100, num 80, num 60)) (num 85) = true.
Proof. reflexivity. Qed.

End Ranking.

(** ** Ranking: [top3_list_index] *)

Section TopIndices.

Local Open Scope Qc_scope.

Lemma index_first l v i : index l v = Ok i → first_occurrence l v i.
Proof.
  revert i. induction l as [|x l IH]; intros i; simpl; [discriminate|].
  destruct (eqb x v) eqn:E.
  - intros [= <-]. apply eqb_eq in E as ->. split; [reflexivity|]. lia.
  - intros H. apply fmap_Ok in H as (k & Hk & ->).
    destruct (IH k Hk) as [Hl Hfirst]. split; [exact Hl|].
    intros [|j] Hj; simpl.
    + apply eqb_neq in E. congruence.
    + apply Hfirst. lia.
Qed.

Lemma index_elem l v : v ∈ l → ∃ i, index l v = Ok i.
Proof.
  induction 1 as [v l|v x l _ IH]; simpl.
  - replace (eqb v v) with true by (symmetry; by apply eqb_eq). eauto.
  - destruct (eqb x v); [eauto|]. destruct IH as [i ->]. simpl. eauto.
Qed.

Lemma first_occurrence_unique l v i j :
  first_occurrence l v i → first_occurrence l v j → i = j.
Proof.
  intros [Hi Hi'] [Hj Hj'].
  destruct (lt_eq_lt_dec i j) as [[Hlt| ->]|Hlt]; [|reflexivity|].
  - by destruct (Hj' i Hlt).
  - by destruct (Hi' j Hlt).
Qed.

Lemma getitem_Ok {A} (l : list A) i a : getitem l i = Ok a ↔ l !! i = Some a.
Proof.
  unfold getitem. destruct (l !! i); split; congruence.
Qed.

Lemma top3_list_index_inv vals x y z :
  top3_list_index vals = Ok (x, y, z) →
  ∃ t0 t1 t2,
    top_n vals 3 !! 0%nat = Some t0 ∧ top_n vals 3 !! 1%nat = Some t1 ∧
    top_n vals 3 !! 2%nat = Some t2 ∧
    first_occurrence vals t0 x ∧ first_occurrence vals t1 y ∧
    first_occurrence vals t2 z.
Proof.
  unfold top3_list_index. intros H. inv_res H.
  exists a, a1, a3.
  rewrite <- !getitem_Ok. auto 10 using index_first.
Qed.

(** With three values or more the ranking always answers. *)
Lemma top3_list_index_Ok vals :
  (3 <= length vals)%nat → ∃ x y z, top3_list_index vals = Ok (x, y, z).
Proof.
  intros Hlen. unfold top3_list_index.
  change 3%Z with (Z.of_nat 3). rewrite top_n_nat.
  pose proof (sort_desc_length vals) as Hl.
  pose proof (sort_desc_perm vals) as Hp.
  destruct (sort_desc vals) as [|t0 [|t1 [|t2 l]]]; simpl in Hl; try lia.
  simpl.
  assert (∀ t, t ∈ t0 :: t1 :: t2 :: l → ∃ i, index vals t = Ok i) as Hin.
  { intros t Ht. apply index_elem. by rewrite <- Hp. }
  destruct (Hin t0) as [x ->]; [set_solver|].
  destruct (Hin t1) as [y ->]; [set_solver|].
  destruct (Hin t2) as [z ->]; [set_solver|].
  simpl. eauto.
Qed.

(** C7.  There is a list, [5; 5; 3; 1], whose two first positions hold equal
    prices, both among its top three values [5; 5; 3], and for which
    [top3_list_index] answers position 0 twice: two distinct constituents
    instead of three.  In general each position returned is the first
    occurrence of the corresponding top value, so equal top values always
    give equal positions. *)
Theorem top3_list_index_collapses :
  (∃ vals : list Qc,
     vals !! 0%nat = Some (num 5) ∧ vals !! 1%nat = Some (num 5) ∧
     top_n vals 3 = [num 5; num 5; num 3] ∧
     top3_list_index vals = Ok (0, 0, 2)%nat) ∧
  (∀ vals x y z, top3_list_index vals = Ok (x, y, z) →
     ∃ t0 t1 t2,
       top_n vals 3 = [t0; t1; t2] ∧
       first_occurrence vals t0 x ∧ first_occurrence vals t1 y ∧
       first_occurrence vals t2 z ∧
       (t0 = t1 → x = y) ∧ (t1 = t2 → y = z) ∧ (t0 = t2 → x = z)).
Proof.
  split.
  - exists tied_prices. repeat split; reflexivity.
  - intros vals x y z H.
    destruct (top3_list_index_inv vals x y z H) as (t0 & t1 & t2 & H0 & H1 & H2 & Hx & Hy & Hz).
    exists t0, t1, t2.
    assert (top_n vals 3 = [t0; t1; t2]) as Htop.
    { change 3%Z with (Z.of_nat 3) in *. rewrite top_n_nat in *.
      assert (length (take 3 (sort_desc vals)) <= 3)%nat as Hlen
        by (rewrite length_take; lia).
      destruct (take 3 (sort_desc vals)) as [|u0 [|u1 [|u2 [|u3 l]]]];
        simpl in *; try discriminate; [congruence | lia]. }
    do 4 (split; [assumption|]).
    split; [|split]; intros ->; eapply first_occurrence_unique; eassumption.
Qed.

Lemma top3_list_index_collapses_witness :
  ∃ t0 t1 t2,
    top_n tied_prices 3 = [t0; t1; t2] ∧
    first_occurrence tied_prices t0 0 ∧ first_occurrence tied_prices t1 0 ∧
    first_occurrence tied_prices t2 2 ∧
    (t0 = t1 → 0 = 0)%nat ∧ (t1 = t2 → 0 = 2)%nat ∧ (t0 = t2 → 0 = 2)%nat.
Proof.
  apply (proj2 top3_list_index_collapses tied_prices 0 0 2)%nat.
  reflexivity.
Defined.

End TopIndices.

(** ** The engine, one row at a time *)

Section Step.

Local Open Scope Qc_scope.

Lemma truediv_Ok x y q : truediv x y = Ok q ↔ y ≠ 0 ∧ q = x / y.
Proof.
  unfold truediv. destruct (eqb y (num 0)) eqn:E.
  - apply eqb_eq in E. split; [discriminate|]. intros [H _]. by destruct H.
  - apply eqb_neq in E. split; [intros [= <-]; by split|].
    intros [_ ->]. reflexivity.
Qed.


(** What a successful pass through the loop body has done. *)
Lemma step_inv index row st st' :
  step index row st = Ok st' →
  ∃ prices level,
    row_prices row (tops st) = Ok prices ∧
    portfolio_value st' = portfolio_value st ++ [calc_portfolio_value prices] ∧
    truediv (calc_portfolio_value prices) (divisor st') = Ok level ∧
    index_level st' = index_level st ++ [level] ∧
    ((on_last_working_day row = true ∧
      (∃ x y z, top3_list_index (row_1_12 row) = Ok (x, y, z) ∧
                tops st' = (x + 1, y + 1, z + 1)%nat) ∧
      old_tops st' = tops st ∧ divisor st' = divisor st ∧
      old_portfolio_value st' = old_portfolio_value st)
     ∨
     (on_last_working_day row = false ∧ on_first_working_day row = true ∧
      tops st' = tops st ∧ old_tops st' = old_tops st ∧
      (∃ q, truediv (calc_portfolio_value prices) (old_portfolio_value st') = Ok q ∧
            divisor st' = q * divisor st) ∧
      (if (3 <? index)%nat
       then ∃ old_prices, row_prices row (old_tops st) = Ok old_prices ∧
              old_portfolio_value st' = calc_portfolio_value old_prices
       else old_portfolio_value st' = old_portfolio_value st))
     ∨
     (on_last_working_day row = false ∧ on_first_working_day row = false ∧
      tops st' = tops st ∧ old_tops st' = old_tops st ∧
      divisor st' = divisor st ∧
      old_portfolio_value st' = old_portfolio_value st)).
Proof.
  unfold step. intros H.
  apply bind_Ok in H as ([[y m] d] & Hsplit & H).
  apply bind_Ok in H as (prices & Hprices & H).
  apply bind_Ok in H as (today & Htoday & H).
  apply bind_Ok in H as (lwd & Hlwd & H).
  apply bind_Ok in H as (st1 & Hbranch & H).
  apply bind_Ok in H as (level & Hlevel & H).
  injection H as <-. simpl.
  assert (row_date row = Ok today) as Hdate.
  { unfold row_date. rewrite Hsplit. exact Htoday. }
  exists prices, level.
  destruct (decide (today = lwd)) as [Heq|Hne].
  - (* the last working day of the month *)
    apply bind_Ok in Hbranch as ([[x y'] z] & Htop & Hbranch).
    injection Hbranch as <-. simpl in *.
    do 4 (split; [done|]).
    left. unfold on_last_working_day. rewrite Hdate, Hlwd.
    split; [by apply bool_decide_eq_true|].
    split; [by exists x, y', z|]. done.
  - assert (on_last_working_day row = false) as Hlast.
    { unfold on_last_working_day. rewrite Hdate, Hlwd. by apply bool_decide_eq_false. }
    apply bind_Ok in Hbranch as (today' & Htoday' & Hbranch).
    apply bind_Ok in Hbranch as (fwd & Hfwd & Hbranch).
    assert (today' = today) as -> by congruence.
    destruct (decide (today = fwd)) as [Heq'|Hne'].
    + (* the first working day of the month *)
      apply bind_Ok in Hbranch as (opv & Hopv & Hbranch).
      apply bind_Ok in Hbranch as (q & Hq & Hbranch).
      injection Hbranch as <-. simpl in *.
      do 4 (split; [done|]).
      right; left. split; [done|].
      unfold on_first_working_day. rewrite Hdate, Hfwd.
      split; [by apply bool_decide_eq_true|].
      do 2 (split; [done|]).
      split; [by exists q|].
      destruct (3 <? index)%nat.
      * apply bind_Ok in Hopv as (old_prices & Hold & Hopv).
        injection Hopv as <-. by exists old_prices.
      * by injection Hopv as <-.
    + injection Hbranch as <-. simpl in *.
      do 4 (split; [done|]).
      right; right. split; [done|].
      unfold on_first_working_day. rewrite Hdate, Hfwd.
      split; [by apply bool_decide_eq_false|]. done.
Qed.

End Step.

(** ** The engine, the whole pass *)

Section Pass.

Local Open Scope Qc_scope.

Lemma iterrows_app k rs1 rs2 st :
  iterrows k (rs1 ++ rs2) st = iterrows k rs1 st ≫= iterrows (k + length rs1) rs2.
Proof.
  revert k st. induction rs1 as [|r rs1 IH]; intros k st; simpl.
  - by rewrite Nat.add_0_r.
  - destruct (step k r st) as [st1|e]; simpl; [|reflexivity].
    rewrite IH. by replace (S k + length rs1)%nat with (k + S (length rs1))%nat by lia.
Qed.

(** The two output lists only grow, by one entry a row. *)
Lemma iterrows_lists k rs st st' :
  iterrows k rs st = Ok st' →
  ∃ pvs ils,
    portfolio_value st' = portfolio_value st ++ pvs ∧
    index_level st' = index_level st ++ ils ∧
    length pvs = length rs ∧ length ils = length rs.
Proof.
  revert k st. induction rs as [|r rs IH]; intros k st; simpl.
  - intros [= <-]. exists [], []. by rewrite !app_nil_r.
  - intros H. apply bind_Ok in H as (st1 & Hstep & H).
    destruct (IH _ _ H) as (pvs & ils & Hp & Hi & Hlp & Hli).
    destruct (step_inv _ _ _ _ Hstep) as (prices & level & _ & Hp1 & _ & Hi1 & _).
    exists (calc_portfolio_value prices :: pvs), (level :: ils).
    rewrite Hp, Hp1, Hi, Hi1, <- !app_assoc. simpl. auto.
Qed.

Lemma run_lengths rs st :
  run rs = Ok st →
  length (portfolio_value st) = length rs ∧ length (index_level st) = length rs.
Proof.
  intros H. destruct (iterrows_lists _ _ _ _ H) as (pvs & ils & -> & -> & ? & ?).
  simpl. auto.
Qed.

(** A pass that ends well has met each of its rows in a state, and left it
    in the state that meets the next row. *)
Lemma run_at rs fin i row :
  run rs = Ok fin → rs !! i = Some row →
  ∃ st st',
    state_before rs i = Ok st ∧ step i row st = Ok st' ∧
    state_before rs (S i) = Ok st' ∧
    iterrows (S i) (drop (S i) rs) st' = Ok fin.
Proof.
  intros Hrun Hrow. unfold state_before, run in *.
  pose proof (lookup_lt_Some _ _ _ Hrow) as Hlt.
  rewrite <- (take_drop_middle rs i row Hrow) in Hrun.
  rewrite iterrows_app in Hrun.
  apply bind_Ok in Hrun as (st & Hst & Hrun).
  rewrite length_take, Nat.min_l in Hrun by lia. simpl in Hrun.
  apply bind_Ok in Hrun as (st' & Hstep & Hrun).
  exists st, st'. split; [exact Hst|]. split; [exact Hstep|]. split; [|exact Hrun].
  rewrite (take_S_r rs i row Hrow), iterrows_app, Hst. simpl.
  rewrite length_take, Nat.min_l by lia. simpl. by rewrite Hstep.
Qed.

(** The entries written for row [i] are those found at position [i] of the
    two columns. *)
Lemma run_recorded rs fin i row st st' :
  run rs = Ok fin → rs !! i = Some row →
  state_before rs i = Ok st → step i row st = Ok st' →
  ∃ prices level,
    row_prices row (tops st) = Ok prices ∧
    truediv (calc_portfolio_value prices) (divisor st') = Ok level ∧
    portfolio_value fin !! i = Some (calc_portfolio_value prices) ∧
    index_level fin !! i = Some level.
Proof.
  intros Hrun Hrow Hst Hstep.
  destruct (run_at rs fin i row Hrun Hrow) as (st0 & st0' & Hst0 & Hstep0 & _ & Hrest).
  assert (st0 = st) as -> by congruence.
  assert (st0' = st') as -> by congruence.
  pose proof (lookup_lt_Some _ _ _ Hrow) as Hlt.
  destruct (run_lengths _ _ Hst) as [Hlp Hli].
  rewrite length_take, Nat.min_l in Hlp, Hli by lia.
  destruct (step_inv _ _ _ _ Hstep) as (prices & level & Hp & Hpv & Hl & Hil & _).
  destruct (iterrows_lists _ _ _ _ Hrest) as (pvs & ils & Hpf & Hif & _ & _).
  exists prices, level. split; [exact Hp|]. split; [exact Hl|].
  rewrite Hpf, Hpv, Hif, Hil, <- !app_assoc. simpl.
  split; apply list_lookup_middle; done.
Qed.

End Pass.

(** ** The value recorded for a row *)

Section PortfolioValue.

Local Open Scope Qc_scope.

(** C1, as amended.  The value recorded for a row is [calc_portfolio_value] of
    that row's prices at the selection in force when the row is met, that is
    the one left by the rows before it.  A row on the last working day of its
    month computes the new top three of its own prices, and that selection is
    in force from the next row on; any other row leaves the selection as it
    is. *)
Theorem portfolio_value_of_selection_before (rs : list Row) (fin : State) (i : nat) (r : Row) :
  run rs = Ok fin → rs !! i = Some r →
  ∃ st st' prices,
    state_before rs i = Ok st ∧ state_before rs (S i) = Ok st' ∧
    row_prices r (tops st) = Ok prices ∧
    portfolio_value fin !! i = Some (calc_portfolio_value prices) ∧
    (on_last_working_day r = false → tops st' = tops st) ∧
    (on_last_working_day r = true →
     ∃ x y z, top3_list_index (row_1_12 r) = Ok (x, y, z) ∧
              tops st' = (x + 1, y + 1, z + 1)%nat).
Proof.
  intros Hrun Hrow.
  destruct (run_at rs fin i r Hrun Hrow) as (st & st' & Hst & Hstep & Hst' & _).
  destruct (run_recorded rs fin i r st st' Hrun Hrow Hst Hstep)
    as (prices & level & Hp & _ & Hpv & _).
  exists st, st', prices. do 4 (split; [assumption|]).
  destruct (step_inv _ _ _ _ Hstep) as (prices' & level' & _ & _ & _ & _ & Hcase).
  destruct Hcase as [(Hl & Htop & _) | [(Hl & _ & Htop & _) | (Hl & _ & Htop & _)]];
    rewrite Hl; split; intros; (discriminate || assumption).
Qed.

Lemma portfolio_value_of_selection_before_witness :
  ∃ fin, run month_end_series = Ok fin ∧
  ∃ st st' prices,
    state_before month_end_series 0 = Ok st ∧ state_before month_end_series 1 = Ok st' ∧
    row_prices january_31 (tops st) = Ok prices ∧
    portfolio_value fin !! 0%nat = Some (calc_portfolio_value prices) ∧
    (on_last_working_day january_31 = false → tops st' = tops st) ∧
    (on_last_working_day january_31 = true →
     ∃ x y z, top3_list_index (row_1_12 january_31) = Ok (x, y, z) ∧
              tops st' = (x + 1, y + 1, z + 1)%nat).
Proof.
  eexists. split; [vm_compute; reflexivity|].
  apply (portfolio_value_of_selection_before month_end_series _ 0).
  - vm_compute; reflexivity.
  - reflexivity.
Defined.

(** On 31 January 2020 the selection goes from (1, 1, 1) to (3, 2, 1); the
    value recorded that day is 1, that of (1, 1, 1), and not 9/4. *)
Lemma value_of_selection_at_row_fails : ¬ value_of_selection_at_row month_end_series.
Proof.
  intros Hclaim.
  assert (∃ fin, run month_end_series = Ok fin) as [fin Hrun]
    by (eexists; vm_compute; reflexivity).
  assert (∃ st', state_before month_end_series 1 = Ok st' ∧ tops st' = (3, 2, 1)%nat)
    as (st' & Hst' & Htops) by (eexists; split; [vm_compute; reflexivity|reflexivity]).
  assert (month_end_series !! 0%nat = Some january_31) as Hrow
    by reflexivity.
  destruct (Hclaim fin 0%nat _ st' Hrun Hrow Hst') as (prices' & Hp' & Hpv').
  destruct (run_at _ _ _ _ Hrun Hrow) as (st & st1 & Hst & Hstep & _ & _).
  destruct (run_recorded _ _ _ _ _ _ Hrun Hrow Hst Hstep)
    as (prices & level & Hp & _ & Hpv & _).
  rewrite Htops in Hp'. vm_compute in Hp'. injection Hp' as <-.
  vm_compute in Hst. injection Hst as <-.
  vm_compute in Hp. injection Hp as <-.
  rewrite Hpv in Hpv'. vm_compute in Hpv'. discriminate.
Qed.

End PortfolioValue.

(** ** The divisor *)

Section Divisor.

Local Open Scope Qc_scope.

(** Rows 0 to 3 leave [old_portfolio_value] alone. *)
Lemma iterrows_old_portfolio_value k rs st st' :
  iterrows k rs st = Ok st' → (k + length rs <= 4)%nat →
  old_portfolio_value st' = old_portfolio_value st.
Proof.
  revert k st. induction rs as [|r rs IH]; intros k st; simpl.
  - by intros [= <-].
  - intros H Hk. apply bind_Ok in H as (st1 & Hstep & H).
    rewrite (IH _ _ H) by lia.
    destruct (step_inv _ _ _ _ Hstep) as (prices & level & _ & _ & _ & _ & Hcase).
    destruct Hcase as [(_ & _ & _ & _ & Ho) | [(_ & _ & _ & _ & _ & Ho) | (_ & _ & _ & _ & _ & Ho)]];
      try exact Ho.
    destruct (Nat.ltb_spec 3 k) as [?|_]; [lia|exact Ho].
Qed.

Lemma step_divisor_frame index r st st' :
  step index r st = Ok st' →
  on_last_working_day r = true ∨ on_first_working_day r = false →
  divisor st' = divisor st.
Proof.
  intros Hstep Hday.
  destruct (step_inv _ _ _ _ Hstep) as (prices & level & _ & _ & _ & _ & Hcase).
  destruct Hcase as [(_ & _ & _ & Hd & _) | [(Hl & Hf & _) | (_ & _ & _ & _ & Hd & _)]];
    try exact Hd.
  destruct Hday; congruence.
Qed.

Lemma iterrows_divisor_frame k rs st st' :
  iterrows k rs st = Ok st' →
  (∀ r, r ∈ rs → on_first_working_day r = false) →
  divisor st' = divisor st.
Proof.
  revert k st. induction rs as [|r rs IH]; intros k st; simpl.
  - by intros [= <-].
  - intros H Hrs. apply bind_Ok in H as (st1 & Hstep & H).
    rewrite (IH _ _ H) by (intros; apply Hrs; by right).
    apply (step_divisor_frame _ _ _ _ Hstep). right. apply Hrs. by left.
Qed.

(** C8.  Working through a row that is neither on the last nor on the first
    working day of its month leaves the selection, the previous selection and
    the divisor as they were.  The divisor is given a value only on a row of
    the first working day of a month: every other row leaves it as it was, it
    starts at 1, and it still is 1 after a pass with no such row. *)
Theorem ordinary_day_frame :
  (∀ index r st st',
     step index r st = Ok st' →
     on_last_working_day r = false → on_first_working_day r = false →
     tops st' = tops st ∧ old_tops st' = old_tops st ∧ divisor st' = divisor st) ∧
  (∀ index r st st',
     step index r st = Ok st' →
     on_last_working_day r = true ∨ on_first_working_day r = false →
     divisor st' = divisor st) ∧
  divisor init = num 1 ∧
  (∀ rs fin,
     run rs = Ok fin → (∀ r, r ∈ rs → on_first_working_day r = false) →
     divisor fin = num 1).
Proof.
  split; [|split; [|split]].
  - intros index r st st' Hstep Hl Hf.
    destruct (step_inv _ _ _ _ Hstep) as (prices & level & _ & _ & _ & _ & Hcase).
    destruct Hcase as [(Hl' & _) | [(_ & Hf' & _) | (_ & _ & Ht & Ho & Hd & _)]];
      [congruence | congruence | done].
  - apply step_divisor_frame.
  - reflexivity.
  - intros rs fin Hrun Hrs. apply (iterrows_divisor_frame _ _ _ _ Hrun Hrs).
Qed.

Lemma ordinary_day_frame_witness :
  ∃ st', step 0 january_15 init = Ok st' ∧
    tops st' = tops init ∧ old_tops st' = old_tops init ∧ divisor st' = divisor init.
Proof.
  eexists. split; [vm_compute; reflexivity|].
  apply (proj1 ordinary_day_frame 0%nat january_15 init).
  - vm_compute; reflexivity.
  - reflexivity.
  - reflexivity.
Defined.

(** C4.  On a row of the first working day of its month (which is never the
    last, lemma [first_is_not_last]), the divisor becomes the value of the selection in force at that
    row's prices, divided by the value of the previous selection at the same
    prices, times the divisor so far; for the rows 0 to 3 the number 100
    stands in for the value of the previous selection. *)
Theorem divisor_update_rule (rs : list Row) (fin : State) (i : nat) (r : Row) :
  run rs = Ok fin → rs !! i = Some r → on_first_working_day r = true →
  ∃ st st' new_prices q,
    state_before rs i = Ok st ∧ state_before rs (S i) = Ok st' ∧
    row_prices r (tops st) = Ok new_prices ∧
    (if decide (i <= 3)%nat
     then truediv (calc_portfolio_value new_prices) (num 100) = Ok q
     else ∃ old_prices,
            row_prices r (old_tops st) = Ok old_prices ∧
            truediv (calc_portfolio_value new_prices)
                    (calc_portfolio_value old_prices) = Ok q) ∧
    divisor st' = q * divisor st.
Proof.
  intros Hrun Hrow Hf. pose proof (first_is_not_last r Hf) as Hl.
  destruct (run_at rs fin i r Hrun Hrow) as (st & st' & Hst & Hstep & Hst' & _).
  destruct (step_inv _ _ _ _ Hstep) as (prices & level & Hp & _ & _ & _ & Hcase).
  destruct Hcase as [(Hl' & _) | [(_ & _ & _ & _ & (q & Hq & Hd) & Ho) | (_ & Hf' & _)]];
    [congruence | | congruence].
  exists st, st', prices, q. do 3 (split; [assumption|]). split; [|exact Hd].
  destruct (decide (i <= 3)%nat) as [Hi|Hi].
  - destruct (Nat.ltb_spec 3 i) as [?|_]; [lia|].
    rewrite Ho in Hq.
    rewrite (iterrows_old_portfolio_value 0 (take i rs) init st Hst) in Hq; [exact Hq|].
    rewrite length_take. lia.
  - destruct (Nat.ltb_spec 3 i) as [_|?]; [|lia].
    destruct Ho as (old_prices & Hold & Ho). rewrite Ho in Hq. eauto.
Qed.

(** Row 0 of [new_year] uses 100; row 5 of [turn_of_month] uses the value of
    the previous selection. *)
Lemma divisor_update_rule_witness :
  (∃ fin, run new_year = Ok fin ∧
   ∃ st st' new_prices q,
     state_before new_year 0 = Ok st ∧ state_before new_year 1 = Ok st' ∧
     row_prices january_1 (tops st) = Ok new_prices ∧
     (if decide (0 <= 3)%nat
      then truediv (calc_portfolio_value new_prices) (num 100) = Ok q
      else ∃ old_prices,
             row_prices january_1 (old_tops st) = Ok old_prices ∧
             truediv (calc_portfolio_value new_prices)
                     (calc_portfolio_value old_prices) = Ok q) ∧
     divisor st' = q * divisor st) ∧
  (∃ fin, run turn_of_month = Ok fin ∧
   ∃ st st' new_prices q,
     state_before turn_of_month 5 = Ok st ∧ state_before turn_of_month 6 = Ok st' ∧
     row_prices february_3 (tops st) = Ok new_prices ∧
     (if decide (5 <= 3)%nat
      then truediv (calc_portfolio_value new_prices) (num 100) = Ok q
      else ∃ old_prices,
             row_prices february_3 (old_tops st) = Ok old_prices ∧
             truediv (calc_portfolio_value new_prices)
                     (calc_portfolio_value old_prices) = Ok q) ∧
     divisor st' = q * divisor st).
Proof.
  split.
  - eexists. split; [vm_compute; reflexivity|].
    eapply (divisor_update_rule new_year _ 0 january_1).
    + vm_compute; reflexivity.
    + reflexivity.
    + reflexivity.
  - eexists. split; [vm_compute; reflexivity|].
    eapply (divisor_update_rule turn_of_month _ 5 february_3).
    + vm_compute; reflexivity.
    + reflexivity.
    + reflexivity.
Defined.



End Divisor.

(** ** No division by zero *)

Section Safety.

Local Open Scope Qc_scope.

Lemma bind_no_zero_division {A B} (m : res A) (f : A → res B) :
  no_zero_division m → (∀ a, m = Ok a → no_zero_division (f a)) →
  no_zero_division (m ≫= f).
Proof.
  unfold no_zero_division, mbind, res_bind. destruct m as [a|e].
  - intros _ H. by apply H.
  - intros H _ [= ->]. by apply H.
Qed.

Lemma fmap_no_zero_division {A B} (m : res A) (f : A → B) :
  no_zero_division m → no_zero_division (f <$> m).
Proof.
  unfold no_zero_division, fmap, res_fmap. destruct m as [a|e]; [done|].
  intros H [= ->]. by apply H.
Qed.

Lemma Ok_no_zero_division {A} (a : A) : no_zero_division (Ok a).
Proof. done. Qed.

Lemma int_no_zero_division s : no_zero_division (int s).
Proof. unfold no_zero_division, int. cbv zeta. by repeat case_match. Qed.

Lemma dt_date_no_zero_division y m d : no_zero_division (dt_date y m d).
Proof. unfold no_zero_division, dt_date. by repeat case_match. Qed.

Lemma getitem_no_zero_division {A} (l : list A) i : no_zero_division (getitem l i).
Proof. unfold no_zero_division, getitem. by case_match. Qed.

Lemma row_getitem_no_zero_division r i : no_zero_division (row_getitem r i).
Proof. destruct i; [done|]. apply getitem_no_zero_division. Qed.

Lemma index_no_zero_division l v : no_zero_division (index l v).
Proof.
  induction l as [|x l IH]; simpl; [done|].
  destruct (eqb x v); [done|]. by apply fmap_no_zero_division.
Qed.

Create HintDb safe.

#[local] Hint Resolve Ok_no_zero_division int_no_zero_division
  dt_date_no_zero_division getitem_no_zero_division
  row_getitem_no_zero_division index_no_zero_division : safe.

(** Goes through the binds of a computation, leaving what no hint proves. *)
Ltac safe_binds :=
  repeat first
    [ apply bind_no_zero_division; [solve [auto with safe]|intros ? ?]
    | progress (case_match; simpl)
    | solve [auto with safe]
    | solve [unfold no_zero_division; discriminate] ].

Lemma split_date_no_zero_division s : no_zero_division (split_date s).
Proof. unfold split_date. safe_binds. Qed.

Lemma weekday_no_zero_division y m d : no_zero_division (weekday y m d).
Proof. unfold weekday. cbv zeta. safe_binds. Qed.

#[local] Hint Resolve split_date_no_zero_division weekday_no_zero_division : safe.

Lemma monthrange_no_zero_division y m : no_zero_division (monthrange y m).
Proof. unfold monthrange. safe_binds. Qed.

#[local] Hint Resolve monthrange_no_zero_division : safe.

Lemma month_last_day_no_zero_division s : no_zero_division (month_last_day s).
Proof. unfold month_last_day. safe_binds. Qed.

#[local] Hint Resolve month_last_day_no_zero_division : safe.

Lemma last_working_day_no_zero_division s : no_zero_division (last_working_day s).
Proof. unfold last_working_day. safe_binds. Qed.

Lemma first_working_day_no_zero_division s : no_zero_division (first_working_day s).
Proof. unfold first_working_day. safe_binds. Qed.

Lemma row_prices_no_zero_division r sel : no_zero_division (row_prices r sel).
Proof. unfold row_prices. safe_binds. Qed.

Lemma top3_list_index_no_zero_division vals : no_zero_division (top3_list_index vals).
Proof. unfold top3_list_index. cbv zeta. safe_binds. Qed.

#[local] Hint Resolve last_working_day_no_zero_division
  first_working_day_no_zero_division row_prices_no_zero_division
  top3_list_index_no_zero_division : safe.










End Safety.

(** ** The export *)

Section ExportValues.

Local Open Scope Qc_scope.

Lemma label_index_None name l : name ∉ l → label_index name l = None.
Proof.
  induction l as [|x l IH]; simpl; [done|].
  intros Hn. apply not_elem_of_cons in Hn as [Hne Hn].
  destruct (String.eqb_spec x name) as [->|_]; [done|].
  by rewrite IH.
Qed.

(** The frame after [calc_index_level], on a frame that has neither of the
    two labels yet: both columns are appended, in this order. *)
Lemma calc_index_level_appends start_date end_date df df' :
  "Index_Portfolio_Value"%string ∉ names df → "Index_Level"%string ∉ names df →
  calc_index_level start_date end_date df = Ok df' →
  ∃ fin,
    run (rows df) = Ok fin ∧
    names df' = names df ++ ["Index_Portfolio_Value"; "Index_Level"]%string ∧
    rows df' =
      zip_with (fun r v => {| Date := Date r; cells := cells r ++ [v] |})
        (zip_with (fun r v => {| Date := Date r; cells := cells r ++ [v] |})
           (rows df) (portfolio_value fin))
        (index_level fin).
Proof.
  intros Hpv Hil. unfold calc_index_level. intros H.
  apply bind_Ok in H as (fin & Hrun & H).
  apply bind_Ok in H as (df1 & H1 & H).
  destruct (run_lengths _ _ Hrun) as [Hlp Hli].
  exists fin. split; [exact Hrun|].
  unfold setitem in H1. rewrite Hlp, Nat.eqb_refl in H1. simpl in H1.
  rewrite (label_index_None _ _ Hpv) in H1. injection H1 as <-.
  unfold setitem in H. simpl in H.
  rewrite length_zip_with, Hlp, Nat.min_id, Hli, Nat.eqb_refl in H. simpl in H.
  rewrite label_index_None in H.
  - injection H as <-. simpl. by rewrite <- app_assoc.
  - rewrite elem_of_app, list_elem_of_singleton. intros [?|?]; [done|discriminate].
Qed.

Lemma export_rows rs pvs ils :
  Forall (fun r => length (cells r) = 10%nat) rs →
  length pvs = length rs → length ils = length rs →
  mapM (M := res) (fun r => v ← row_getitem r 12; Ok (Date r, v))
    (zip_with (fun r v => {| Date := Date r; cells := cells r ++ [v] |})
       (zip_with (fun r v => {| Date := Date r; cells := cells r ++ [v] |}) rs pvs)
       ils)
  = Ok (zip (Date <$> rs) ils).
Proof.
  intros Hrs. revert pvs ils.
  induction Hrs as [|r rs Hr Hrs IH]; intros [|pv pvs] [|il ils] Hp Hi;
    simpl in *; try done.
  rewrite IH by lia.
  unfold getitem. rewrite <- app_assoc. simpl.
  rewrite lookup_app_r, Hr by lia. reflexivity.
Qed.

(** C2, as amended.  On a frame of ten numeric columns, none of them labelled
    [Index_Portfolio_Value] or [Index_Level], the export after a pass has the
    two columns [Date] and [Index_Level] and, in the order of the input, the
    rows from the third on; the index level of a row is the portfolio value
    recorded for it divided by the divisor in force once the row is dealt
    with.  ([export_values] takes the columns at positions 0 and 12, whatever
    they hold.) *)
Theorem export_values_ten_columns (start_date end_date : date) (df df' : DataFrame) :
  ten_columns df →
  calc_index_level start_date end_date df = Ok df' →
  ∃ fin,
    run (rows df) = Ok fin ∧
    export_values df' =
      Ok (["Date"; "Index_Level"]%string, levels_from_third_row df fin) ∧
    ∀ i level, index_level fin !! i = Some level →
      ∃ st' pv,
        state_before (rows df) (S i) = Ok st' ∧
        portfolio_value fin !! i = Some pv ∧
        divisor st' ≠ 0 ∧ level = pv / divisor st'.
Proof.
  intros (Hn & Hpv & Hil & Hrows) Hcalc.
  destruct (calc_index_level_appends _ _ _ _ Hpv Hil Hcalc) as (fin & Hrun & Hnames & Hr).
  destruct (run_lengths _ _ Hrun) as [Hlp Hli].
  exists fin. split; [exact Hrun|]. split.
  - unfold export_values, columns. rewrite Hnames, Hr.
    replace (getitem ("Date"%string :: names df ++
               ["Index_Portfolio_Value"; "Index_Level"]%string) 12)
      with (Ok (A := string) "Index_Level"%string).
    2:{ unfold getitem. simpl. rewrite lookup_app_r, Hn by lia. reflexivity. }
    simpl. rewrite !zip_with_drop.
    rewrite export_rows.
    + unfold levels_from_third_row. rewrite (zip_with_drop pair), fmap_drop. reflexivity.
    + by apply Forall_drop.
    + rewrite !length_drop. lia.
    + rewrite !length_drop. lia.
  - intros i level Hlevel.
    assert (i < length (rows df))%nat as Hi.
    { rewrite <- Hli. by eapply lookup_lt_Some. }
    destruct (lookup_lt_is_Some_2 _ _ Hi) as [r Hrow].
    destruct (run_at _ _ _ _ Hrun Hrow) as (st & st' & Hst & Hstep & Hst' & _).
    destruct (run_recorded _ _ _ _ _ _ Hrun Hrow Hst Hstep)
      as (prices & level' & _ & Hdiv & Hpvi & Hili).
    assert (level' = level) as -> by congruence.
    apply truediv_Ok in Hdiv as [Hd0 ->].
    exists st', (calc_portfolio_value prices). auto.
Qed.

Lemma export_values_ten_columns_witness :
  ∃ df', calc_index_level some_day other_day ten_frame = Ok df' ∧
  ∃ fin,
    run (rows ten_frame) = Ok fin ∧
    export_values df' =
      Ok (["Date"; "Index_Level"]%string, levels_from_third_row ten_frame fin) ∧
    ∀ i level, index_level fin !! i = Some level →
      ∃ st' pv,
        state_before (rows ten_frame) (S i) = Ok st' ∧
        portfolio_value fin !! i = Some pv ∧
        divisor st' ≠ 0 ∧ level = pv / divisor st'.
Proof.
  eexists. split; [vm_compute; reflexivity|].
  eapply (export_values_ten_columns some_day other_day ten_frame).
  - unfold ten_columns. split; [reflexivity|].
    split; [compute_done|]. split; [compute_done|].
    repeat constructor.
  - vm_compute; reflexivity.
Defined.

(** With an eleventh numeric column, [Index_Portfolio_Value] stands at
    position 12 and is what the export holds. *)
Lemma exports_index_level_fails : ¬ exports_index_level eleven_frame.
Proof.
  intros Hclaim.
  assert (∃ df', calc_index_level some_day other_day eleven_frame = Ok df' ∧
                 fst <$> export_values df' =
                   Ok ["Date"; "Index_Portfolio_Value"]%string)
    as (df' & Hcalc & Hexport)
    by (eexists; split; vm_compute; reflexivity).
  assert (∃ fin, run (rows eleven_frame) = Ok fin) as [fin Hrun]
    by (eexists; vm_compute; reflexivity).
  rewrite (Hclaim _ _ _ _ Hcalc Hrun) in Hexport.
  discriminate Hexport.
Qed.

(** There the third row is exported with its portfolio value, 300, while its
    index level is 150. *)
Example export_eleven_columns :
  (df ← calc_index_level some_day other_day eleven_frame;
   '(_, body) ← export_values df;
   Ok (body.*1, same_numbers body.*2 [num 300; num 400]))
  = Ok (["03/01/2020"; "06/01/2020"]%string, true) ∧
  ((fun fin => same_numbers (drop 2 (index_level fin)) [num 150; num 200]) <$>
     run (rows eleven_frame))
  = Ok true.
Proof. split; vm_compute; reflexivity. Qed.

End ExportValues.

(** ** The arguments of [calc_index_level] *)

Section DateArguments.

(** C10.  [calc_index_level] does not look at [start_date] and [end_date]:
    two calls on the same frame give the same result, whatever the two dates
    are, and a call that ends well has taken every row of the frame through
    the loop body and recorded one portfolio value and one index level for
    each. *)
Theorem start_end_dates_ignored :
  (∀ start_date end_date start_date' end_date' df,
     calc_index_level start_date end_date df =
     calc_index_level start_date' end_date' df) ∧
  (∀ start_date end_date df df',
     calc_index_level start_date end_date df = Ok df' →
     ∃ fin,
       run (rows df) = Ok fin ∧
       length (portfolio_value fin) = length (rows df) ∧
       length (index_level fin) = length (rows df) ∧
       ∀ i r, rows df !! i = Some r →
         ∃ st st', state_before (rows df) i = Ok st ∧ step i r st = Ok st').
Proof.
  split; [reflexivity|].
  intros start_date end_date df df' H. unfold calc_index_level in H.
  apply bind_Ok in H as (fin & Hrun & _).
  destruct (run_lengths _ _ Hrun) as [Hlp Hli].
  exists fin. do 3 (split; [assumption|]).
  intros i r Hrow.
  destruct (run_at _ _ _ _ Hrun Hrow) as (st & st' & Hst & Hstep & _).
  eauto.
Qed.

Lemma start_end_dates_ignored_witness :
  ∃ df', calc_index_level some_day other_day ten_frame = Ok df' ∧
  ∃ fin,
    run (rows ten_frame) = Ok fin ∧
    length (portfolio_value fin) = length (rows ten_frame) ∧
    length (index_level fin) = length (rows ten_frame) ∧
    ∀ i r, rows ten_frame !! i = Some r →
      ∃ st st', state_before (rows ten_frame) i = Ok st ∧ step i r st = Ok st'.
Proof.
  eexists. split; [vm_compute; reflexivity|].
  eapply (proj2 start_end_dates_ignored some_day other_day ten_frame).
  vm_compute; reflexivity.
Defined.

(** The selection never holds position 0, the [Date] column. *)
Lemma step_positions_ok index r st st' :
  step index r st = Ok st' → positions_ok st → positions_ok st'.
Proof.
  intros Hstep. unfold positions_ok.
  destruct (step_inv _ _ _ _ Hstep) as (prices & level & _ & _ & _ & _ & Hcase).
  destruct st as [t1 t2 t3 [[o1 o2] o3] pv il dv opv].
  destruct st' as [t1' t2' t3' [[o1' o2'] o3'] pv' il' dv' opv'].
  unfold tops in Hcase. simpl in *.
  destruct Hcase as [(_ & (x & y & z & _ & Ht) & Ho & _) | [(_ & _ & Ht & Ho & _)
                    | (_ & _ & Ht & Ho & _)]];
    injection Ht as -> -> ->; injection Ho as -> -> ->; lia.
Qed.

Lemma tops_positive rs i st : state_before rs i = Ok st → positions_ok st.
Proof.
  unfold state_before, run.
  assert (positions_ok init) as Hinit by (unfold positions_ok; simpl; lia).
  revert Hinit. generalize init. generalize 0%nat. generalize (take i rs).
  induction l as [|r l IH]; intros k st0 Hst0; simpl.
  - by intros [= <-].
  - intros H. apply bind_Ok in H as (st1 & Hstep & H).
    eapply IH; [|exact H]. by eapply step_positions_ok.
Qed.

End DateArguments.

(** ** The pass completes on well-formed series *)

Section Completion.

Local Open Scope Qc_scope.



Lemma first_occurrence_lt l v i : first_occurrence l v i → (i < length l)%nat.
Proof. intros [Hi _]. by eapply lookup_lt_Some. Qed.




End Completion.

(** * Further properties of the code *)

(** ** Dates: [split_date], [month_last_day] and the working days *)

Section DateFunctions.

Local Open Scope Z_scope.

Lemma substring_short n m s : (String.length s <= n)%nat → String.substring n m s = EmptyString.
Proof.
  revert n. induction s as [|c s IH]; intros [|n] Hn; simpl in *; try lia.
  - by destruct m.
  - reflexivity.
  - apply IH. lia.
Qed.

Lemma int_only_ValueError s e : int s = Raise e → e = ValueError.
Proof. unfold int. cbv zeta. repeat case_match; congruence. Qed.

Lemma dt_date_only_ValueError y m d e : dt_date y m d = Raise e → e = ValueError.
Proof. unfold dt_date. repeat case_match; congruence. Qed.






(** X1.  [split_date] reads the ten characters [DD/MM/YYYY] of a date back
    as its year, month and day, and it checks no range: a month or a day up
    to 99 is read as it is written. *)
Theorem split_date_reads_date_text (y m d : Z) :
  0 <= y <= 9999 → 0 <= m <= 99 → 0 <= d <= 99 →
  String.length (date_text y m d) = 10%nat ∧
  split_date (date_text y m d) = Ok (y, m, d).
Proof.
  intros Hy Hm Hd. split; [reflexivity|]. by apply split_date_date_text.
Qed.

Lemma split_date_reads_date_text_witness :
  String.length (date_text 2020 13 99) = 10%nat ∧
  split_date (date_text 2020 13 99) = Ok (2020, 13, 99).
Proof. apply (split_date_reads_date_text 2020 13 99); lia. Defined.

(** X2.  [split_date] raises nothing but [ValueError], and raises it on every
    text of six characters or fewer, where the year part [date[6:]] is
    empty. *)
Theorem split_date_errors :
  (∀ s e, split_date s = Raise e → e = ValueError) ∧
  (∀ s, (String.length s <= 6)%nat → split_date s = Raise ValueError).
Proof.
  split.
  - intros s e. unfold split_date.
    destruct (int (str_from 6 s)) as [y|e1] eqn:E1; cbn [mbind res_bind];
      [|intros [= <-]; by eapply int_only_ValueError].
    destruct (int (str_slice 3 5 s)) as [m|e2] eqn:E2; cbn [mbind res_bind];
      [|intros [= <-]; by eapply int_only_ValueError].
    destruct (int (str_slice 0 2 s)) as [d|e3] eqn:E3; cbn [mbind res_bind];
      [discriminate|intros [= <-]; by eapply int_only_ValueError].
  - intros s Hs. unfold split_date, str_from.
    by rewrite substring_short.
Qed.

Lemma split_date_errors_witness : split_date "1/2/20" = Raise ValueError.
Proof. apply (proj2 split_date_errors "1/2/20"%string). simpl. lia. Defined.

Lemma days_before_year_succ y :
  days_before_year (y + 1) = days_before_year y + 365 + (if isleap y then 1 else 0).
Proof.
  unfold days_before_year, isleap. cbv zeta.
  replace (y + 1 - 1) with y by lia.
  destruct (Z.eqb_spec (y mod 4) 0), (Z.eqb_spec (y mod 100) 0),
    (Z.eqb_spec (y mod 400) 0); simpl;
    Z.to_euclidean_division_equations; lia.
Qed.


(** X3.  For a valid year and month [month_last_day] returns the last
    calendar day of the month: a day from 28 to 31, the 29th exactly in the
    February of a leap year, and the day after it is the first day of the
    next month. *)
Theorem month_last_day_is_last (s : string) (y m d : Z) :
  split_date s = Ok (y, m, d) → 1 <= y <= 9999 → 1 <= m <= 12 →
  ∃ n, month_last_day s = Ok n ∧ year n = y ∧ month n = m ∧
       28 <= day n <= 31 ∧
       (day n = 29 ↔ m = 2 ∧ isleap y = true) ∧
       ymd2ord y m (day n) + 1 = ymd2ord (next_month y m).1 (next_month y m).2 1.
Proof.
  intros Hs Hy Hm. eexists. split; [by apply (month_last_day_Ok s y m d)|].
  simpl. do 2 (split; [reflexivity|]).
  split; [by apply days_in_month_range|].
  assert (m = 1 ∨ m = 2 ∨ m = 3 ∨ m = 4 ∨ m = 5 ∨ m = 6 ∨ m = 7 ∨ m = 8 ∨
          m = 9 ∨ m = 10 ∨ m = 11 ∨ m = 12) as Hc by lia.
  unfold ymd2ord, next_month, days_in_month, days_before_month.
  repeat destruct Hc as [-> | Hc]; try subst m; simpl;
    try rewrite days_before_year_succ; destruct (isleap y); simpl;
    (split; [split; [lia|intros [? ?]; (lia || congruence)]|lia]).
Qed.

Lemma month_last_day_is_last_witness :
  ∃ n, month_last_day "10/02/2024" = Ok n ∧ year n = 2024 ∧ month n = 2 ∧
       28 <= day n <= 31 ∧
       (day n = 29 ↔ 2 = 2 ∧ isleap 2024 = true) ∧
       ymd2ord 2024 2 (day n) + 1 = ymd2ord (next_month 2024 2).1 (next_month 2024 2).2 1.
Proof.
  apply (month_last_day_is_last "10/02/2024" 2024 2 10).
  - reflexivity.
  - lia.
  - lia.
Defined.

Lemma first_working_day_inv s f :
  first_working_day s = Ok f →
  ∃ y m d, split_date s = Ok (y, m, d) ∧ 1 <= y <= 9999 ∧ 1 <= m <= 12.
Proof.
  unfold first_working_day. intros H.
  apply bind_Ok in H as ([[y m] d] & Hs & H).
  apply bind_Ok in H as (w & _ & H).
  destruct (dt_date_inv _ _ _ _ H) as (_ & Hy & Hm & _).
  exists y, m, d. auto.
Qed.

Lemma last_working_day_inv s l :
  last_working_day s = Ok l →
  ∃ y m d, split_date s = Ok (y, m, d) ∧ 1 <= y <= 9999 ∧ 1 <= m <= 12.
Proof.
  unfold last_working_day, month_last_day. intros H.
  apply bind_Ok in H as (n & Hn & _).
  apply bind_Ok in Hn as ([[y m] d] & Hs & Hn).
  apply bind_Ok in Hn as ([w nd] & _ & Hn).
  destruct (dt_date_inv _ _ _ _ Hn) as (_ & Hy & Hm & _).
  exists y, m, d. auto.
Qed.

(** X4.  The working days are the outermost ones: every day of the month
    before the first working day, and every day of the month after the last
    working day, is a Saturday or a Sunday.  The first working day is one of
    the first three days of the month, the last working day one of its last
    three. *)
Theorem working_days_outermost (s : string) (f l : date) :
  first_working_day s = Ok f → last_working_day s = Ok l →
  (∀ k, 1 <= k < day f → weekend (Date_ (year f) (month f) k)) ∧
  (∀ k, day l < k <= days_in_month (year l) (month l) →
        weekend (Date_ (year l) (month l) k)) ∧
  day f <= 3 ∧ days_in_month (year l) (month l) - 2 <= day l.
Proof.
  intros Hf Hl.
  destruct (first_working_day_inv s f Hf) as (y & m & d & Hs & Hy & Hm).
  rewrite (first_working_day_Ok s y m d Hs Hy Hm) in Hf.
  rewrite (last_working_day_Ok s y m d Hs Hy Hm) in Hl.
  injection Hf as <-. injection Hl as <-. simpl. unfold weekend.
  set (n := days_in_month y m).
  set (w := date_weekday (Date_ y m 1)).
  set (wn := date_weekday (Date_ y m n)).
  assert (date_weekday (Date_ y m 2) = (w + 1) mod 7) as H2
    by apply (date_weekday_shift y m 1 1).
  assert (date_weekday (Date_ y m (n - 1)) = (wn + -1) mod 7) as Hn1
    by apply (date_weekday_shift y m n (-1)).
  split; [|split; [|split]].
  - intros k Hk. destruct (Z.eqb_spec w 5) as [E5|_].
    + assert (k = 1 ∨ k = 2) as [-> | ->] by lia.
      * left. exact E5.
      * right. rewrite H2, E5. reflexivity.
    + destruct (Z.eqb_spec w 6) as [E6|_]; [|lia].
      assert (k = 1) as -> by lia. right. exact E6.
  - intros k Hk. destruct (Z.eqb_spec wn 5) as [E5|_].
    + assert (k = n) as -> by lia. left. exact E5.
    + destruct (Z.eqb_spec wn 6) as [E6|_]; [|lia].
      assert (k = n - 1 ∨ k = n) as [-> | ->] by lia.
      * left. rewrite Hn1, E6. reflexivity.
      * right. exact E6.
  - destruct (w =? 5); [lia|]. destruct (w =? 6); lia.
  - destruct (wn =? 5); [lia|]. destruct (wn =? 6); lia.
Qed.

(** In May 2020 the 1st is a Friday and the 31st a Sunday; in August 2020 the
    1st is a Saturday. *)
Lemma working_days_outermost_witness :
  (∀ k, 1 <= k < 3 → weekend (Date_ 2020 8 k)) ∧
  (∀ k, 31 < k <= days_in_month 2020 8 → weekend (Date_ 2020 8 k)) ∧
  3 <= 3 ∧ days_in_month 2020 8 - 2 <= 31.
Proof.
  apply (working_days_outermost "15/08/2020" (Date_ 2020 8 3) (Date_ 2020 8 31)).
  - reflexivity.
  - reflexivity.
Defined.



(** X6.  No row is both on the first and on the last working day of its
    month, so the [elif] of the loop body hides no first working day: of the
    two tests at most one holds. *)
Theorem working_day_tests_exclusive (r : Row) :
  on_first_working_day r && on_last_working_day r = false.
Proof.
  destruct (on_first_working_day r) eqn:Hf; [|reflexivity].
  by rewrite (first_is_not_last r Hf).
Qed.

(** X23.  [split_date] never reads the characters at positions 2 and 5, where
    the separators stand: a text with other characters there is read the same
    way. *)
Theorem split_date_ignores_separators (d1 d2 m1 m2 c1 c2 c1' c2' : ascii) (y : string) :
  split_date (String d1 (String d2 (String c1 (String m1 (String m2 (String c2 y)))))) =
  split_date (String d1 (String d2 (String c1' (String m1 (String m2 (String c2' y)))))).
Proof.
  unfold split_date, str_from, str_slice.
  cbn [String.length Nat.sub String.substring]. reflexivity.
Qed.

Example split_date_dashes : split_date "15-01-2020" = Ok (2020, 1, 15).
Proof. reflexivity. Qed.

End DateFunctions.

(** ** Ranking, on any list and any bound *)

Section RankingMore.

Local Open Scope Qc_scope.

#[local] Instance desc_trans : Transitive desc.
Proof. intros a b c Hab Hbc. unfold desc in *. by etrans. Qed.

#[local] Instance desc_antisymm : AntiSymm (=) desc.
Proof. intros a b Hab Hba. unfold desc in *. by apply Qcle_antisym. Qed.

Lemma slice_to_length {A} (n : Z) (l : list A) :
  length (slice_to n l) = slice_length n (length l).
Proof.
  unfold slice_to, slice_length.
  destruct (Z.ltb_spec n 0); rewrite length_take; lia.
Qed.

Lemma slice_to_prefix {A} (n : Z) (l : list A) : ∃ rest, slice_to n l ++ rest = l.
Proof.
  unfold slice_to. destruct (n <? 0)%Z; eexists; apply take_drop.
Qed.

Lemma sort_desc_sorted_id l : StronglySorted desc l → sort_desc l = l.
Proof.
  induction 1 as [|x l Hl IH Hx]; simpl; [reflexivity|].
  rewrite IH. destruct l as [|y l']; [reflexivity|]. simpl.
  apply Forall_cons in Hx as [Hy _].
  by replace (ltb x y) with false by (symmetry; by apply ltb_ge).
Qed.

Lemma sort_desc_perm_eq v v' : v ≡ₚ v' → sort_desc v = sort_desc v'.
Proof.
  intros Hp. apply (StronglySorted_unique desc); try apply sort_desc_sorted.
  by rewrite !sort_desc_perm.
Qed.

(** X7.  For every list and every [int] bound, negative ones too, [top_n]
    returns a list in descending order made of values of its argument; its
    length is that of the slice [[:n]]: [min n len] for [n] from 0 on (nothing
    for 0, everything from [len] on), and [len + n], or nothing, below 0. *)
Theorem top_n_any_bound (v : list Qc) (n : Z) :
  length (top_n v n) = slice_length n (length v) ∧
  StronglySorted (fun a b => b <= a) (top_n v n) ∧
  (∀ x, x ∈ top_n v n → x ∈ v) ∧
  (Z.of_nat (length v) <= n → top_n v n ≡ₚ v)%Z.
Proof.
  unfold top_n.
  destruct (slice_to_prefix n (sort_desc v)) as [rest Hrest].
  pose proof (sort_desc_sorted v) as Hs. rewrite <- Hrest in Hs.
  split; [by rewrite slice_to_length, sort_desc_length|].
  split; [by eapply StronglySorted_app_1_l|].
  split.
  - intros x Hx. rewrite <- (sort_desc_perm v), <- Hrest. set_solver.
  - intros Hn. unfold slice_to.
    destruct (Z.ltb_spec n 0) as [?|_]; [lia|].
    rewrite take_ge by (rewrite sort_desc_length; lia).
    apply sort_desc_perm.
Qed.

(** X8.  Taking the top [n] of the top [n] changes nothing. *)
Theorem top_n_idempotent (v : list Qc) (n : nat) :
  top_n (top_n v (Z.of_nat n)) (Z.of_nat n) = top_n v (Z.of_nat n).
Proof.
  rewrite !top_n_nat.
  rewrite sort_desc_sorted_id.
  - apply take_idemp.
  - pose proof (sort_desc_sorted v) as Hs.
    rewrite <- (take_drop n (sort_desc v)) in Hs.
    by eapply StronglySorted_app_1_l.
Qed.

(** X9.  The values [top_n] returns do not depend on the order of its
    argument: two lists that are rearrangements of each other have the same
    top [n], for every [n]. *)
Theorem top_n_order_independent (v v' : list Qc) (n : Z) :
  v ≡ₚ v' → top_n v n = top_n v' n.
Proof.
  intros Hp. unfold top_n. by rewrite (sort_desc_perm_eq v v' Hp).
Qed.

Lemma top_n_order_independent_witness :
  top_n (num 3 :: shuffled_prices) 2 = top_n (shuffled_prices ++ [num 3]) 2.
Proof.
  apply (top_n_order_independent (num 3 :: shuffled_prices) (shuffled_prices ++ [num 3]) 2).
  apply Permutation_cons_append.
Defined.

Lemma index_self_Ok vals v : v ∈ sort_desc vals → ∃ i, index vals v = Ok i.
Proof. rewrite sort_desc_perm. apply index_elem. Qed.

(** X10.  [top3_list_index] answers whenever the list holds three values or
    more; on a shorter list it raises [IndexError], the top-three list having
    no third entry. *)
Theorem top3_list_index_short (vals : list Qc) :
  if (length vals <? 3)%nat
  then top3_list_index vals = Raise IndexError
  else ∃ x y z, top3_list_index vals = Ok (x, y, z).
Proof.
  destruct (Nat.ltb_spec (length vals) 3) as [Hlt|Hge];
    [|by apply top3_list_index_Ok].
  unfold top3_list_index. change 3%Z with (Z.of_nat 3). rewrite top_n_nat.
  pose proof (sort_desc_length vals) as Hl.
  assert (∀ t, t ∈ sort_desc vals → ∃ i, index vals t = Ok i) as Hin
    by apply index_self_Ok.
  destruct (sort_desc vals) as [|t0 [|t1 [|t2 l]]]; simpl in Hl; try lia.
  - reflexivity.
  - cbn [take getitem lookup list_lookup mbind res_bind].
    destruct (Hin t0) as [x ->]; [set_solver|]. reflexivity.
  - cbn [take getitem lookup list_lookup mbind res_bind].
    destruct (Hin t0) as [x ->]; [set_solver|]. cbn [mbind res_bind].
    destruct (Hin t1) as [y ->]; [set_solver|]. reflexivity.
Qed.

(** X11.  The three positions [top3_list_index] returns hold the three
    largest values of the list, largest first: the values found there are in
    descending order, and with the values left out they make up the list, none
    of those left out exceeding the third. *)
Theorem top3_list_index_largest (vals : list Qc) (x y z : nat) :
  top3_list_index vals = Ok (x, y, z) →
  ∃ t0 t1 t2 rest,
    vals !! x = Some t0 ∧ vals !! y = Some t1 ∧ vals !! z = Some t2 ∧
    t1 <= t0 ∧ t2 <= t1 ∧
    [t0; t1; t2] ++ rest ≡ₚ vals ∧ ∀ v, v ∈ rest → v <= t2.
Proof.
  intros H.
  destruct (top3_list_index_inv vals x y z H)
    as (t0 & t1 & t2 & H0 & H1 & H2 & [Hx _] & [Hy _] & [Hz _]).
  destruct (top_n_spec vals 3) as (Hlen & Hsorted & rest & Hperm & Hrest).
  change (Z.of_nat 3) with 3%Z in *.
  assert (length (top_n vals 3) <= 3)%nat as Hle by lia.
  assert (top_n vals 3 = [t0; t1; t2]) as Htop.
  { clear Hlen Hsorted Hperm Hrest.
    destruct (top_n vals 3) as [|u0 [|u1 [|u2 [|u3 l]]]]; simpl in *;
      try discriminate; [congruence|lia]. }
  rewrite Htop in *.
  apply StronglySorted_cons in Hsorted as [Ht0 Hsorted].
  apply StronglySorted_cons in Hsorted as [Ht1 _].
  apply Forall_cons in Ht0 as [Ht10 _]. apply Forall_cons in Ht1 as [Ht21 _].
  exists t0, t1, t2, rest. do 5 (split; [assumption|]).
  split; [exact Hperm|].
  intros v Hv. apply (Hrest t2 v); [set_solver|exact Hv].
Qed.

Lemma top3_list_index_largest_witness :
  ∃ t0 t1 t2 rest,
    tied_prices !! 0%nat = Some t0 ∧ tied_prices !! 0%nat = Some t1 ∧
    tied_prices !! 2%nat = Some t2 ∧
    t1 <= t0 ∧ t2 <= t1 ∧
    [t0; t1; t2] ++ rest ≡ₚ tied_prices ∧ ∀ v, v ∈ rest → v <= t2.
Proof.
  apply (top3_list_index_largest tied_prices 0 0 2). reflexivity.
Defined.

(** X12.  On a list whose values are all different the three positions are
    different: the selection collapses only on equal prices. *)
Theorem top3_list_index_distinct (vals : list Qc) (x y z : nat) :
  NoDup vals → top3_list_index vals = Ok (x, y, z) →
  x ≠ y ∧ y ≠ z ∧ x ≠ z.
Proof.
  intros Hnd H.
  destruct (top3_list_index_inv vals x y z H)
    as (t0 & t1 & t2 & H0 & H1 & H2 & [Hx _] & [Hy _] & [Hz _]).
  change 3%Z with (Z.of_nat 3) in *. rewrite top_n_nat in *.
  assert (NoDup (take 3 (sort_desc vals))) as Hnd'.
  { rewrite <- (sort_desc_perm vals), <- (take_drop 3 (sort_desc vals)) in Hnd.
    by apply NoDup_app in Hnd as [? _]. }
  repeat split; intros ->.
  - assert (t0 = t1) as -> by congruence.
    by pose proof (NoDup_lookup _ _ _ _ Hnd' H0 H1).
  - assert (t1 = t2) as -> by congruence.
    by pose proof (NoDup_lookup _ _ _ _ Hnd' H1 H2).
  - assert (t0 = t2) as -> by congruence.
    by pose proof (NoDup_lookup _ _ _ _ Hnd' H0 H2).
Qed.

Lemma top3_list_index_distinct_witness :
  NoDup shuffled_prices ∧ top3_list_index shuffled_prices = Ok (2, 1, 0)%nat ∧
  (2 ≠ 1 ∧ 1 ≠ 0 ∧ 2 ≠ 0)%nat.
Proof.
  split; [compute_done|]. split; [reflexivity|].
  apply (top3_list_index_distinct shuffled_prices 2 1 0).
  - compute_done.
  - reflexivity.
Defined.

End RankingMore.

(** ** Valuation: [calc_portfolio_value] *)

Section Valuation.

Local Open Scope Qc_scope.






End Valuation.

(** ** The engine: invariants and failure *)

Section EngineMore.

Local Open Scope Qc_scope.

Lemma step_positions_within index r st st' :
  step index r st = Ok st' → positions_within 11 st → positions_within 11 st'.
Proof.
  intros Hstep. unfold positions_within.
  destruct (step_inv _ _ _ _ Hstep) as (prices & level & _ & _ & _ & _ & Hcase).
  destruct st as [t1 t2 t3 [[o1 o2] o3] pv il dv opv].
  destruct st' as [t1' t2' t3' [[o1' o2'] o3'] pv' il' dv' opv'].
  unfold tops in Hcase. simpl in *. intros Hsel.
  repeat (apply Forall_cons in Hsel as [? Hsel]).
  destruct Hcase as [(_ & (x & y & z & Htop & Ht) & Ho & _) | [(_ & _ & Ht & Ho & _)
                    | (_ & _ & Ht & Ho & _)]];
    injection Ht as -> -> ->; injection Ho as -> -> ->;
    try (repeat (apply Forall_cons; split; [lia|]); by apply Forall_nil).
  destruct (top3_list_index_inv _ _ _ _ Htop) as (? & ? & ? & _ & _ & _ & Hx & Hy & Hz).
  apply first_occurrence_lt in Hx, Hy, Hz.
  unfold row_1_12 in Hx, Hy, Hz. rewrite length_take in Hx, Hy, Hz.
  repeat (apply Forall_cons; split; [lia|]); by apply Forall_nil.
Qed.

Lemma iterrows_positions_within k rs st st' :
  iterrows k rs st = Ok st' → positions_within 11 st → positions_within 11 st'.
Proof.
  revert k st. induction rs as [|r rs IH]; intros k st; simpl.
  - by intros [= <-].
  - intros H Hsel. apply bind_Ok in H as (st1 & Hstep & H).
    eapply IH; [exact H|]. by eapply step_positions_within.
Qed.

(** X14.  Throughout a pass the selection and the previous selection hold
    positions from 1 to 11: the engine reads prices from the first eleven
    numeric columns only, never the date column and never a column further to
    the right, such as the two it adds itself. *)
Theorem selection_within_eleven (rs : list Row) (i : nat) (st : State) :
  state_before rs i = Ok st →
  Forall (fun p => 1 <= p <= 11)%nat
    [top_1 st; top_2 st; top_3 st; (old_tops st).1.1; (old_tops st).1.2; (old_tops st).2].
Proof.
  intros Hst. apply (iterrows_positions_within 0 (take i rs) init st Hst).
  unfold positions_within. simpl. repeat constructor; lia.
Qed.

Lemma selection_within_eleven_witness :
  ∃ st, state_before turn_of_month 6 = Ok st ∧
  Forall (fun p => 1 <= p <= 11)%nat
    [top_1 st; top_2 st; top_3 st; (old_tops st).1.1; (old_tops st).1.2; (old_tops st).2].
Proof.
  eexists. split; [vm_compute; reflexivity|].
  eapply (selection_within_eleven turn_of_month 6).
  vm_compute; reflexivity.
Defined.

Lemma iterrows_unit_divisor k rs st st' :
  iterrows k rs st = Ok st' →
  (∀ r, r ∈ rs → on_first_working_day r = false) →
  divisor st = 1 → index_level st = portfolio_value st →
  divisor st' = 1 ∧ index_level st' = portfolio_value st'.
Proof.
  revert k st. induction rs as [|r rs IH]; intros k st; simpl.
  - by intros [= <-].
  - intros H Hrs Hd Hlists. apply bind_Ok in H as (st1 & Hstep & H).
    assert (on_first_working_day r = false) as Hf by (apply Hrs; by left).
    pose proof (step_divisor_frame _ _ _ _ Hstep (or_intror Hf)) as Hd1.
    destruct (step_inv _ _ _ _ Hstep) as (prices & level & _ & Hpv & Hlevel & Hil & _).
    apply truediv_Ok in Hlevel as [_ ->].
    eapply IH; [exact H| |congruence|].
    + intros r' Hr'. apply Hrs. by right.
    + rewrite Hil, Hpv, Hlists, Hd1, Hd. f_equal. f_equal. field. done.
Qed.

(** X15.  Until the first row on a first working day of a month the divisor
    is 1 and the index level recorded for each row is the portfolio value
    recorded for it. *)
Theorem level_is_value_before_first_update (rs : list Row) (i : nat) (st : State) :
  state_before rs i = Ok st →
  (∀ r, r ∈ take i rs → on_first_working_day r = false) →
  divisor st = 1 ∧ index_level st = portfolio_value st.
Proof.
  intros Hst Hrs.
  by apply (iterrows_unit_divisor 0 (take i rs) init st Hst Hrs).
Qed.

Lemma level_is_value_before_first_update_witness :
  ∃ st, state_before mid_month 3 = Ok st ∧
        divisor st = 1 ∧ index_level st = portfolio_value st.
Proof.
  eexists. split; [vm_compute; reflexivity|].
  eapply (level_is_value_before_first_update mid_month 3).
  - vm_compute; reflexivity.
  - intros r Hr. simpl in Hr.
    repeat (apply elem_of_cons in Hr as [-> | Hr]; [reflexivity|]).
    by apply elem_of_nil in Hr.
Defined.



(** X17.  What the pass records for a row depends on that row and the rows
    before it only: the pass over a series that is continued by further rows
    records, for the rows of the series, what the pass over the series alone
    records. *)
Theorem pass_prefix_stable (rs rs' : list Row) (fin' : State) :
  run (rs ++ rs') = Ok fin' →
  ∃ fin, run rs = Ok fin ∧
    take (length rs) (portfolio_value fin') = portfolio_value fin ∧
    take (length rs) (index_level fin') = index_level fin.
Proof.
  unfold run. rewrite iterrows_app. intros H.
  apply bind_Ok in H as (fin & Hfin & Hrest).
  exists fin. split; [exact Hfin|].
  destruct (run_lengths _ _ Hfin) as [Hlp Hli].
  destruct (iterrows_lists _ _ _ _ Hrest) as (pvs & ils & -> & -> & _ & _).
  split.
  - rewrite <- Hlp. apply take_app_length.
  - rewrite <- Hli. apply take_app_length.
Qed.

Lemma pass_prefix_stable_witness :
  ∃ fin' fin, run (mid_month ++ month_end_series) = Ok fin' ∧ run mid_month = Ok fin ∧
    take (length mid_month) (portfolio_value fin') = portfolio_value fin ∧
    take (length mid_month) (index_level fin') = index_level fin.
Proof.
  edestruct (pass_prefix_stable mid_month month_end_series) as (fin & Hfin & Hlists).
  - vm_compute; reflexivity.
  - eexists _, fin. split; [vm_compute; reflexivity|]. split; [exact Hfin|exact Hlists].
Defined.

Lemma iterrows_raise k rs st e :
  iterrows k rs st = Raise e →
  ∃ i r st', rs !! i = Some r ∧ iterrows k (take i rs) st = Ok st' ∧
             step (k + i) r st' = Raise e.
Proof.
  revert k st. induction rs as [|r rs IH]; intros k st; simpl; [discriminate|].
  destruct (step k r st) as [st1|e1] eqn:Hstep; cbn [mbind res_bind].
  - intros H. destruct (IH _ _ H) as (i & r' & st' & Hr' & Hpre & Hbad).
    exists (S i), r', st'. simpl. rewrite Hstep. cbn [mbind res_bind].
    split; [exact Hr'|]. split; [exact Hpre|].
    by replace (k + S i)%nat with (S k + i)%nat by lia.
  - intros [= ->]. exists 0%nat, r, st. simpl. rewrite Nat.add_0_r. auto.
Qed.

Lemma run_raise_at rs i r st e :
  rs !! i = Some r → state_before rs i = Ok st → step i r st = Raise e →
  run rs = Raise e.
Proof.
  intros Hrow Hst Hstep. unfold state_before, run in *.
  pose proof (lookup_lt_Some _ _ _ Hrow) as Hlt.
  rewrite <- (take_drop_middle rs i r Hrow), iterrows_app, Hst.
  cbn [mbind res_bind]. rewrite length_take, Nat.min_l by lia. simpl.
  by rewrite Hstep.
Qed.

(** X18.  The pass raises an exception exactly when the loop body raises it
    on some row met after all rows before it went through, and then
    [calc_index_level] raises that exception too: no row is skipped, and no
    column is written. *)
Theorem pass_fails_at_first_bad_row (rs : list Row) (e : exn) :
  (run rs = Raise e ↔
   ∃ i r st, rs !! i = Some r ∧ state_before rs i = Ok st ∧ step i r st = Raise e) ∧
  (run rs = Raise e →
   ∀ start_date end_date labels,
     calc_index_level start_date end_date {| names := labels; rows := rs |} = Raise e).
Proof.
  split; [split|].
  - intros H. destruct (iterrows_raise 0 rs init e H) as (i & r & st & ? & ? & ?).
    exists i, r, st. auto.
  - intros (i & r & st & Hrow & Hst & Hstep). by eapply run_raise_at.
  - intros H start_date end_date labels. unfold calc_index_level. simpl.
    by rewrite H.
Qed.

Lemma pass_fails_at_first_bad_row_witness :
  run broken_series = Raise ValueError ∧
  ∀ start_date end_date labels,
    calc_index_level start_date end_date {| names := labels; rows := broken_series |}
    = Raise ValueError.
Proof.
  assert (run broken_series = Raise ValueError) as Hrun.
  { apply (proj1 (pass_fails_at_first_bad_row broken_series ValueError)).
    eexists 1%nat, unreadable_row, _.
    split; [reflexivity|]. split; vm_compute; reflexivity. }
  split; [exact Hrun|].
  apply (proj2 (pass_fails_at_first_bad_row broken_series ValueError) Hrun).
Defined.

(** X19.  On a row of the last working day of its month the divisor stays as
    it is, the index level recorded is the value of the selection in force
    before the row over that divisor, and that selection is kept as the
    previous selection for the next update of the divisor. *)
Theorem rebalance_row (rs : list Row) (fin : State) (i : nat) (r : Row) (st : State) :
  run rs = Ok fin → rs !! i = Some r → on_last_working_day r = true →
  state_before rs i = Ok st →
  ∃ st' prices,
    state_before rs (S i) = Ok st' ∧
    old_tops st' = tops st ∧ divisor st' = divisor st ∧
    row_prices r (tops st) = Ok prices ∧
    index_level fin !! i = Some (calc_portfolio_value prices / divisor st).
Proof.
  intros Hrun Hrow Hl Hst.
  destruct (run_at rs fin i r Hrun Hrow) as (st0 & st' & Hst0 & Hstep & Hst' & _).
  assert (st0 = st) as -> by congruence.
  destruct (run_recorded rs fin i r st st' Hrun Hrow Hst Hstep)
    as (prices & level & Hp & Hlevel & _ & Hil).
  destruct (step_inv _ _ _ _ Hstep) as (prices' & level' & _ & _ & _ & _ & Hcase).
  destruct Hcase as [(_ & _ & Ho & Hd & _) | [(Hl' & _) | (Hl' & _)]];
    [|congruence..].
  apply truediv_Ok in Hlevel as [_ ->].
  exists st', prices. rewrite <- Hd. auto.
Qed.

Lemma rebalance_row_witness :
  ∃ fin st, run turn_of_month = Ok fin ∧ state_before turn_of_month 4 = Ok st ∧
  ∃ st' prices,
    state_before turn_of_month 5 = Ok st' ∧
    old_tops st' = tops st ∧ divisor st' = divisor st ∧
    row_prices (row "31/01/2020" [10; 20; 30; 40]%Z) (tops st) = Ok prices ∧
    index_level fin !! 4%nat = Some (calc_portfolio_value prices / divisor st).
Proof.
  eexists _, _. split; [vm_compute; reflexivity|]. split; [vm_compute; reflexivity|].
  eapply (rebalance_row turn_of_month _ 4).
  - vm_compute; reflexivity.
  - reflexivity.
  - reflexivity.
  - vm_compute; reflexivity.
Defined.

End EngineMore.

(** ** The frame: [calc_index_level] and [export_values] as a whole *)

Section FrameMore.

Local Open Scope Qc_scope.





Lemma mapM_Ok {A B} (f : A → res B) (l : list A) (k : list B) :
  mapM (M := res) f l = Ok k → Forall2 (fun a b => f a = Ok b) l k.
Proof.
  revert k. induction l as [|a l IH]; intros k; simpl.
  - intros [= <-]. constructor.
  - intros H. apply bind_Ok in H as (b & Hb & H).
    apply bind_Ok in H as (k' & Hk' & H). injection H as <-.
    constructor; [exact Hb|by apply IH].
Qed.

(** X21.  [export_values] needs a column at position 12: on a frame with
    fewer than twelve numeric columns, such as the frame before
    [calc_index_level] has run on ten or eleven price columns, it raises
    [IndexError].  When it answers, the table has the label of that column
    beside [Date] and one row for each row of the frame but the first two, in
    their order, with the date and the number of column 12 of that row. *)
Theorem export_values_shape (df : DataFrame) :
  ((length (names df) < 12)%nat → export_values df = Raise IndexError) ∧
  (∀ header body, export_values df = Ok (header, body) →
     ∃ label, names df !! 11%nat = Some label ∧ header = ["Date"%string; label] ∧
       length body = (length (rows df) - 2)%nat ∧
       Forall2 (fun r b => b.1 = Date r ∧ cells r !! 11%nat = Some b.2)
         (drop 2 (rows df)) body).
Proof.
  split.
  - intros Hlen. unfold export_values, columns, getitem. simpl.
    by rewrite lookup_ge_None_2 by lia.
  - intros header body H. unfold export_values, columns in H.
    apply bind_Ok in H as (label & Hlabel & H).
    apply bind_Ok in H as (body' & Hbody & H). injection H as <- <-.
    apply getitem_Ok in Hlabel. simpl in Hlabel.
    exists label. do 2 (split; [done|]).
    apply mapM_Ok in Hbody.
    split; [by rewrite <- (Forall2_length _ _ _ Hbody), length_drop|].
    eapply Forall2_impl; [exact Hbody|].
    intros r [dt v] Hr. simpl in Hr.
    apply bind_Ok in Hr as (v' & Hv & Hr). injection Hr as <- <-.
    by apply getitem_Ok in Hv.
Qed.

Lemma export_values_shape_witness :
  export_values ten_frame = Raise IndexError ∧
  ∃ df' header body,
    calc_index_level some_day other_day ten_frame = Ok df' ∧
    export_values df' = Ok (header, body) ∧
    ∃ label, names df' !! 11%nat = Some label ∧ header = ["Date"%string; label] ∧
      length body = (length (rows df') - 2)%nat ∧
      Forall2 (fun r b => b.1 = Date r ∧ cells r !! 11%nat = Some b.2)
        (drop 2 (rows df')) body.
Proof.
  split.
  - apply (proj1 (export_values_shape ten_frame)). simpl. lia.
  - eexists _, _, _. split; [vm_compute; reflexivity|].
    split; [vm_compute; reflexivity|].
    eapply (proj2 (export_values_shape _)). vm_compute; reflexivity.
Defined.

Lemma row_getitem_view r r' p :
  same_view r r' → (p <= 11)%nat → row_getitem r p = row_getitem r' p.
Proof.
  intros [_ Hcells] Hp. destruct p as [|j]; [reflexivity|]. simpl. unfold getitem.
  rewrite <- (lookup_take_lt (cells r) 11 j), <- (lookup_take_lt (cells r') 11 j) by lia.
  by rewrite Hcells.
Qed.

Lemma row_prices_view r r' a b c :
  same_view r r' → (a <= 11)%nat → (b <= 11)%nat → (c <= 11)%nat →
  row_prices r (a, b, c) = row_prices r' (a, b, c).
Proof.
  intros Hv Ha Hb Hc. unfold row_prices.
  by rewrite (row_getitem_view r r' a), (row_getitem_view r r' b),
    (row_getitem_view r r' c).
Qed.

(** The loop body looks at the date and at the first eleven numbers of a row
    only. *)
Lemma step_view index r r' st :
  same_view r r' → positions_within 11 st → step index r st = step index r' st.
Proof.
  intros Hv Hsel. unfold positions_within in Hsel.
  repeat (apply Forall_cons in Hsel as [? Hsel]).
  unfold step, tops, row_1_12.
  destruct (old_tops st) as [[o1 o2] o3]. cbn [fst snd] in *.
  rewrite (row_prices_view r r' (top_1 st) (top_2 st) (top_3 st) Hv) by lia.
  rewrite (row_prices_view r r' o1 o2 o3 Hv) by lia.
  destruct Hv as [-> ->]. reflexivity.
Qed.

Lemma iterrows_view k rs rs' st :
  Forall2 same_view rs rs' → positions_within 11 st →
  iterrows k rs st = iterrows k rs' st.
Proof.
  intros Hrs. revert k st.
  induction Hrs as [|r r' rs rs' Hr Hrs IH]; intros k st Hsel; simpl; [reflexivity|].
  rewrite <- (step_view k r r' st Hr Hsel).
  destruct (step k r st) as [st1|e] eqn:Hstep; [|reflexivity].
  cbn [mbind res_bind]. apply IH. by eapply step_positions_within.
Qed.

Lemma label_index_last name l :
  name ∉ l → ∀ rest, label_index name (l ++ name :: rest) = Some (length l).
Proof.
  induction l as [|x l IH]; intros Hn rest; simpl.
  - by rewrite String.eqb_refl.
  - apply not_elem_of_cons in Hn as [Hne Hn].
    destruct (String.eqb_spec x name) as [->|_]; [done|].
    by rewrite IH.
Qed.

Lemma appended_rows_view rs pvs ils :
  Forall (fun r => 11 <= length (cells r))%nat rs →
  length pvs = length rs → length ils = length rs →
  Forall2 same_view
    (zip_with (fun r v => {| Date := Date r; cells := cells r ++ [v] |})
       (zip_with (fun r v => {| Date := Date r; cells := cells r ++ [v] |}) rs pvs)
       ils)
    rs.
Proof.
  intros Hrs. revert pvs ils.
  induction Hrs as [|r rs Hr Hrs IH]; intros [|pv pvs] [|il ils] Hp Hi;
    simpl in *; try discriminate; constructor.
  - split; [reflexivity|]. simpl. by rewrite <- app_assoc, take_app_le.
  - apply IH; lia.
Qed.

Lemma overwrite_appended rs pvs ils k :
  Forall (fun r => length (cells r) = k) rs →
  length pvs = length rs → length ils = length rs →
  let rs' :=
    zip_with (fun r v => {| Date := Date r; cells := cells r ++ [v] |})
      (zip_with (fun r v => {| Date := Date r; cells := cells r ++ [v] |}) rs pvs)
      ils in
  zip_with (fun r v => {| Date := Date r; cells := <[k := v]> (cells r) |}) rs' pvs = rs' ∧
  zip_with (fun r v => {| Date := Date r; cells := <[S k := v]> (cells r) |}) rs' ils = rs'.
Proof.
  intros Hrs. revert pvs ils.
  induction Hrs as [|r rs Hr Hrs IH]; intros [|pv pvs] [|il ils] Hp Hi;
    simpl in *; try discriminate; [done|].
  destruct (IH pvs ils) as [IH1 IH2]; [lia..|].
  split; (f_equal; [f_equal|assumption]).
  - rewrite <- app_assoc. rewrite insert_app_r_alt by lia.
    by rewrite Hr, Nat.sub_diag.
  - rewrite insert_app_r_alt by (rewrite length_app; simpl; lia).
    rewrite length_app, Hr. simpl.
    by replace (S k - (k + 1))%nat with 0%nat by lia.
Qed.

(** X22.  On a frame with eleven price columns or more, running
    [calc_index_level] again on its own result gives that result again: the
    second pass reads the same dates and the same first eleven columns, and
    writes the same two columns over the ones that are there. *)
Theorem calc_index_level_again (start_date end_date start_date' end_date' : date)
    (df df' : DataFrame) :
  wide_frame df →
  calc_index_level start_date end_date df = Ok df' →
  calc_index_level start_date' end_date' df' = Ok df'.
Proof.
  intros (Hn & Hpv & Hil & Hrows) Hcalc.
  destruct (calc_index_level_appends _ _ _ _ Hpv Hil Hcalc) as (fin & Hrun & Hnames & Hr).
  destruct (run_lengths _ _ Hrun) as [Hlp Hli].
  assert (run (rows df') = Ok fin) as Hrun'.
  { rewrite <- Hrun, Hr. unfold run. apply iterrows_view.
    - apply appended_rows_view; [|done..].
      eapply Forall_impl; [exact Hrows|]. intros r ->. exact Hn.
    - unfold positions_within. simpl.
      repeat (apply Forall_cons; split; [lia|]). by apply Forall_nil. }
  destruct (overwrite_appended (rows df) (portfolio_value fin) (index_level fin)
              (length (names df)) Hrows Hlp Hli) as [Hover1 Hover2].
  rewrite <- Hr in Hover1, Hover2.
  assert (length (rows df') = length (rows df)) as Hlen.
  { rewrite Hr, !length_zip_with. lia. }
  destruct df' as [names' rows']. simpl in *. subst names'.
  unfold calc_index_level. simpl. rewrite Hrun'. cbn [mbind res_bind].
  unfold setitem at 2. simpl.
  rewrite Hlp, Hlen, Nat.eqb_refl. simpl.
  rewrite (label_index_last _ _ Hpv). rewrite Hover1. cbn [mbind res_bind].
  unfold setitem. simpl. rewrite Hli, Hlen, Nat.eqb_refl. simpl.
  replace (names df ++ ["Index_Portfolio_Value"; "Index_Level"]%string)
    with ((names df ++ ["Index_Portfolio_Value"%string]) ++ ["Index_Level"%string])
    by (by rewrite <- app_assoc).
  rewrite label_index_last.
  - rewrite length_app. simpl.
    replace (length (names df) + 1)%nat with (S (length (names df))) by lia.
    by rewrite Hover2.
  - rewrite elem_of_app, list_elem_of_singleton. intros [?|?]; [done|discriminate].
Qed.

Lemma calc_index_level_again_witness :
  ∃ df', calc_index_level some_day other_day eleven_frame = Ok df' ∧
         calc_index_level other_day some_day df' = Ok df'.
Proof.
  eexists. split; [vm_compute; reflexivity|].
  eapply (calc_index_level_again some_day other_day other_day some_day eleven_frame).
  - unfold wide_frame. split; [simpl; lia|].
    split; [compute_done|]. split; [compute_done|].
    repeat constructor.
  - vm_compute; reflexivity.
Defined.

End FrameMore.
